(** * scratchCAD siding calculator: a shallow embedding of [main.py]

    The code is read twice.

    - Over exact arithmetic: Python floats are real numbers ([R]), Python
      [int]s are [Z], [str] is [string], exceptions are the left summand
      of a small error monad.  Every definition follows one function or
      method of [main.py] and keeps its name.  The algebraic properties of
      the calculator are stated and proved on this reading.
    - On binary64 doubles (module [F64]): the same functions with every
      float operation rounded as the interpreter rounds it, so that the
      code can be run on a concrete input.  This reading shows where a
      property of the exact reading stops at the rounding. *)

From Stdlib Require Import Reals Lra Lia ZArith String Ascii List.
From Stdlib Require PrimFloat FloatOps SpecFloat.
From stdpp Require Import base option strings gmap.

Set Warnings "-inexact-float".

Local Open Scope Z_scope.
Local Open Scope R_scope.

(** ** Exceptions *)

Inductive exn : Type :=
| ValueError (msg : string)
| ZeroDivisionError
| OverflowError.

Inductive result (A : Type) : Type :=
| Raise (e : exn)
| Return (a : A).
Arguments Raise {A} e.
Arguments Return {A} a.

Definition bind {A B : Type} (m : result A) (k : A -> result B) : result B :=
  match m with
  | Raise e => Raise e
  | Return a => k a
  end.

Definition rmap {A B : Type} (f : A -> B) (m : result A) : result B :=
  bind m (fun a => Return (f a)).

Notation "'let*' x ':=' m 'in' k" := (bind m (fun x => k))
  (at level 10, x pattern, m at level 100, k at level 200).

(** ** Python numeric primitives over the reals *)

Module Py.

(** Boolean comparisons, as the interpreter decides them. *)
Definition ltb (x y : R) : bool := if Rlt_dec x y then true else false.
Definition leb (x y : R) : bool := if Rle_dec x y then true else false.
Definition eqb (x y : R) : bool := if Req_dec_T x y then true else false.

(** The integer at or below [x], as [int(x // 1)] gives it. *)
Definition floor (x : R) : Z := Int_part x.

(** [math.ceil]. *)
Definition ceil (x : R) : Z := (- Int_part (- x))%Z.

(** [a / b] on floats: raises on a zero divisor. *)
Definition truediv (a b : R) : result R :=
  if eqb b 0 then Raise ZeroDivisionError
  else Return (a / b).

(** [int(a // b)] for a non-zero literal divisor [b]. *)
Definition floordiv (a b : R) : Z := floor (a / b).

(** [a % b] for a positive literal divisor [b]: the result has the sign
    of [b]. *)
Definition mod_ (a b : R) : R := a - b * IZR (floor (a / b)).

(** [round(x)] with one argument: to the nearest integer, ties to the
    even neighbour. *)
Definition round (x : R) : Z :=
  let f := floor x in
  let d := x - IZR f in
  if ltb d (1 / 2) then f
  else if ltb (1 / 2) d then (f + 1)%Z
  else if Z.even f then f else (f + 1)%Z.

(** [max(a, b)] on two arguments: the first one unless the second is
    strictly larger. *)
Definition max (a b : R) : R := if ltb a b then b else a.

(** [math.sqrt]: a negative argument is a domain error. *)
Definition sqrt (x : R) : result R :=
  if ltb x 0 then Raise (ValueError "math domain error")
  else Return (R_sqrt.sqrt x).

(** [math.isclose(a, b, rel_tol=.., abs_tol=..)] on finite values. *)
Definition isclose (a b rel_tol abs_tol : R) : bool :=
  if eqb a b then true
  else
    let diff := Rabs (b - a) in
    (leb diff (Rabs (rel_tol * b)) || leb diff (Rabs (rel_tol * a)))
    || leb diff abs_tol.

End Py.

(** ** Unit conversion *)

Definition SQ_IN_PER_SQ_FT : R := 144.

Definition SCALE_IN_PER_PT : R := 629 / 799.
Definition SCALE_PT_PER_IN : R := 1 / SCALE_IN_PER_PT.
Definition SCALE_PT_PER_FT : R := 12 * SCALE_PT_PER_IN.

Definition pts_to_ft_in (pts : R) (round_to_frac : Z) : result (Z * R) :=
  let inches := pts * SCALE_IN_PER_PT in
  let ft := Py.floordiv inches 12 in
  let in_rem := inches - IZR ft * 12 in
  let* step := Py.truediv 1 (IZR round_to_frac) in
  let in_rem := IZR (Py.round (in_rem / step)) * step in
  if Py.leb 12 in_rem then Return ((ft + 1)%Z, in_rem - 12)
  else Return (ft, in_rem).

Definition ft_in_to_pts (feet : Z) (inches : R) : R :=
  (IZR feet * 12 + inches) * SCALE_PT_PER_IN.

Definition convert_sq_in_to_ft_in (square_inches : R) : Z * R :=
  let sq_ft := Py.floordiv square_inches SQ_IN_PER_SQ_FT in
  let rem_in := Py.mod_ square_inches SQ_IN_PER_SQ_FT in
  (sq_ft, rem_in).

Definition panels_needed_for_area_sq_in
    (total_area_sq_in panel_sq_ft waste_pct : R) : result Z :=
  if Py.leb panel_sq_ft 0 then Raise (ValueError "panel_sq_ft must be > 0")
  else
    let total_sq_ft := Py.max 0 total_area_sq_in / SQ_IN_PER_SQ_FT in
    let total_sq_ft := total_sq_ft * (1 + waste_pct) in
    Return (Py.ceil (total_sq_ft / panel_sq_ft)).

(** ** Openings and sections *)

Module Opening.
Record t : Type := init { width_in : R; height_in : R }.

Definition area_sq_in (self : t) : R := width_in self * height_in self.
End Opening.

Module RectSection.
Record t : Type := init { width_in : R; height_in : R }.

Definition area_sq_in (self : t) : R := width_in self * height_in self.
End RectSection.

Module TriSection.
Record t : Type := Build { base_in : R; pitch_rise : R; pitch_run : R }.

(** [TriSection.__init__]; [pitch_run] defaults to [12.0]. *)
Definition init (base_in pitch_rise pitch_run : R) : result t :=
  if Py.ltb base_in 0 then Raise (ValueError "base_in must be ≥ 0")
  else Return (Build base_in pitch_rise pitch_run).

(** The objects of the class: what the constructor returns. *)
Definition constructed (self : t) : Prop :=
  exists b rise run : R, init b rise run = Return self.

Definition pitch (self : t) : result R :=
  Py.truediv (pitch_rise self) (pitch_run self).

Definition area_sq_in (self : t) : result R :=
  let* p := pitch self in
  let h := base_in self / 2 * p in
  Return (0.5 * base_in self * h).

Definition pitch_mismatch : exn :=
  ValueError "Pitches must match to subtract as a single triangle.".
Definition invalid_geometry : exn :=
  ValueError "Inner base must be ≤ outer base.".

Definition equivalent_difference (self inner : t) : result t :=
  let* p_self := pitch self in
  let* p_inner := pitch inner in
  if negb (Py.isclose p_self p_inner 1e-9 1e-12) then Raise pitch_mismatch
  else if Py.ltb (base_in self) (base_in inner) then Raise invalid_geometry
  else
    let* b_eq := Py.sqrt (base_in self ^ 2 - base_in inner ^ 2) in
    init b_eq (pitch_rise self) (pitch_run self).

(** [outer - inner]. *)
Definition sub (self other : t) : result t := equivalent_difference self other.
End TriSection.

(** A wall section is either of the two classes; both answer
    [area_sq_in]. *)
Inductive Section : Type :=
| Rect (s : RectSection.t)
| Tri (s : TriSection.t).

Definition Section_area_sq_in (s : Section) : result R :=
  match s with
  | Rect r => Return (RectSection.area_sq_in r)
  | Tri t => TriSection.area_sq_in t
  end.

(** [sum(f(x) for x in xs)]: the generator is consumed left to right and
    the first exception ends the sum. *)
Fixpoint sum_gen {A : Type} (f : A -> result R) (xs : list A) (acc : R)
    : result R :=
  match xs with
  | [] => Return acc
  | x :: xs' => let* a := f x in sum_gen f xs' (acc + a)
  end.

(** ** Walls *)

Module Wall.
Record t : Type := Build { sections : list Section; openings : list Opening.t }.

Definition init : t := Build [] [].

Definition add_section (self : t) (section : Section) : t :=
  Build (sections self ++ [section]) (openings self).

Definition add_opening (self : t) (opening : Opening.t) : t :=
  Build (sections self) (openings self ++ [opening]).

Definition section_area_sq_in (self : t) : result R :=
  sum_gen Section_area_sq_in (sections self) 0.

Definition opening_area_sq_in (self : t) : result R :=
  sum_gen (fun o => Return (Opening.area_sq_in o)) (openings self) 0.

Definition siding_area_sq_in (self : t) : result R :=
  let* s := section_area_sq_in self in
  let* o := opening_area_sq_in self in
  Return (s - o).

Definition siding_area_ft_in (self : t) : result (Z * R) :=
  let* a := siding_area_sq_in self in
  Return (convert_sq_in_to_ft_in a).

Definition panels_needed (self : t) (panel_sq_ft waste_pct : R) : result Z :=
  let* a := siding_area_sq_in self in
  panels_needed_for_area_sq_in a panel_sq_ft waste_pct.
End Wall.

(** ** Direction labels

    A [string] is read as a sequence of code points below 256; on these
    [str.strip] and [str.lower] are the functions below. *)

Module Str.
(** [c.isspace()]: tab to carriage return, the four separators
    U+001C..U+001F, space, U+0085 and U+00A0. *)
Definition isspace (c : ascii) : bool :=
  let n := N_of_ascii c in
  ((9 <=? n) && (n <=? 13) || (28 <=? n) && (n <=? 32)
   || (n =? 133) || (n =? 160))%N.

(** Lower-casing of one code point: [A]..[Z] and the upper-case letters
    U+00C0..U+00DE (the sign U+00D7 is not one). *)
Definition lower_char (c : ascii) : ascii :=
  let n := N_of_ascii c in
  if ((65 <=? n) && (n <=? 90)
      || (192 <=? n) && (n <=? 222) && negb (n =? 215))%N
  then ascii_of_N (n + 32) else c.

Fixpoint lower (s : string) : string :=
  match s with
  | EmptyString => EmptyString
  | String c s' => String (lower_char c) (lower s')
  end.

Fixpoint lstrip (s : string) : string :=
  match s with
  | EmptyString => EmptyString
  | String c s' => if isspace c then lstrip s' else s
  end.

Fixpoint rstrip (s : string) : string :=
  match s with
  | EmptyString => EmptyString
  | String c s' =>
      match rstrip s' with
      | EmptyString => if isspace c then EmptyString else String c EmptyString
      | r => String c r
      end
  end.

Definition strip (s : string) : string := rstrip (lstrip s).

(** Every character of [s] is whitespace (also when [s] is empty). *)
Fixpoint all_space (s : string) : bool :=
  match s with
  | EmptyString => true
  | String c s' => isspace c && all_space s'
  end.
End Str.

Definition _DIR_MAP : gmap string string :=
  list_to_map
    [ ("n", "north"); ("north", "north");
      ("s", "south"); ("south", "south");
      ("e", "east"); ("east", "east");
      ("w", "west"); ("west", "west");
      ("front", "front"); ("back", "back");
      ("left", "left"); ("right", "right") ]%string.

(** [label or ""] is [label] itself on every [str]. *)
Definition normalize_direction (label : string) : string :=
  let key := Str.lower (Str.strip label) in
  default key (_DIR_MAP !! key).

(** ** Oriented walls and their container *)

Module OrientedWall.
Record t : Type := Build { wall : Wall.t; direction : string }.

Definition init (wall : Wall.t) (direction : string) : t :=
  Build wall (normalize_direction direction).

Definition siding_area_sq_in (self : t) : result R :=
  let* a := Wall.siding_area_sq_in (wall self) in
  Return (Py.max 0 a).
End OrientedWall.

Module WallContainer.
Record t : Type := Build { _walls : list OrientedWall.t }.

Definition init : t := Build [].

Definition add_wall (self : t) (wall : Wall.t) (direction : string) : t :=
  Build (_walls self ++ [OrientedWall.init wall direction]).

(** The loop of [total_siding_area_sq_in], from the running [total]. *)
Fixpoint total_loop (dirs : option (gset string)) (ows : list OrientedWall.t)
    (total : R) : result R :=
  match ows with
  | [] => Return total
  | ow :: ows' =>
      let selected :=
        match dirs with
        | None => true
        | Some ds => bool_decide (OrientedWall.direction ow ∈ ds)
        end in
      if selected then
        let* a := OrientedWall.siding_area_sq_in ow in
        total_loop dirs ows' (total + a)
      else total_loop dirs ows' total
  end.

Definition total_siding_area_sq_in (self : t)
    (directions : option (list string)) : result R :=
  let dirs :=
    match directions with
    | None => None
    | Some ds => Some (list_to_set (map normalize_direction ds) : gset string)
    end in
  total_loop dirs (_walls self) 0.

Definition total_siding_area_ft_in (self : t)
    (directions : option (list string)) : result (Z * R) :=
  let* area_si := total_siding_area_sq_in self directions in
  Return (convert_sq_in_to_ft_in area_si).

(** The loop of [breakdown_by_direction], from the dictionary built so
    far. *)
Fixpoint breakdown_loop (ows : list OrientedWall.t) (out : gmap string R)
    : result (gmap string R) :=
  match ows with
  | [] => Return out
  | ow :: ows' =>
      let d := OrientedWall.direction ow in
      let* a := OrientedWall.siding_area_sq_in ow in
      breakdown_loop ows' (<[d := default 0 (out !! d) + a]> out)
  end.

Definition breakdown_by_direction (self : t) : result (gmap string R) :=
  breakdown_loop (_walls self) ∅.

Definition breakdown_by_direction_ft_in (self : t)
    : result (gmap string (Z * R)) :=
  let* si := breakdown_by_direction self in
  Return (convert_sq_in_to_ft_in <$> si).
End WallContainer.

(** [sum(d.values())]. *)
Definition sum_values (d : gmap string R) : R :=
  map_fold (fun _ v acc => acc + v) 0 d.

(** ** The same code on binary64 doubles

    Floats are Rocq's primitive binary64 numbers, whose [+], [-], [*],
    [/] and square root round to nearest, ties to even, as the
    interpreter's do.  What Python adds on top (conversions between
    [int] and [float], [//] and [%], [round], [math.ceil], the
    exceptions) is written out from CPython's definitions. *)

Module F64.
Import PrimFloat FloatOps SpecFloat.
Local Open Scope float_scope.

(** The double nearest to the integer [n] (ties to even; an infinity
    beyond the range). *)
Definition of_Z (n : Z) : float := SF2Prim (binary_normalize prec emax n 0 false).

Definition is_infinite (x : float) : bool :=
  match Prim2SF x with S754_infinity _ => true | _ => false end.

(** The sign bit, which tells [-0.0] from [0.0]. *)
Definition signbit (x : float) : bool :=
  match Prim2SF x with
  | S754_zero s | S754_infinity s | S754_finite s _ _ => s
  | S754_nan => false
  end.

(** [float(n)] for an [int], as in [x - n] or [n * x]. *)
Definition of_int (n : Z) : result float :=
  let x := of_Z n in
  if is_infinite x then Raise OverflowError else Return x.

(** [a / b] on two [int]s: the nearest double to the quotient. *)
Definition truediv_int (a b : Z) : result float :=
  if (b =? 0)%Z then Raise ZeroDivisionError
  else
    let sf (n : Z) :=
      match n with
      | Z0 => S754_zero false
      | Zpos p => S754_finite false p 0
      | Zneg p => S754_finite true p 0
      end in
    let q := SF2Prim (SFdiv prec emax (sf a) (sf b)) in
    if is_infinite q then Raise OverflowError else Return q.

(** [a / b] on floats. *)
Definition truediv (a b : float) : result float :=
  if b =? 0 then Raise ZeroDivisionError else Return (a / b).

(** [int(x)]: towards zero. *)
Definition to_int (x : float) : result Z :=
  match Prim2SF x with
  | S754_zero _ => Return 0%Z
  | S754_finite s m e =>
      let v := if (0 <=? e)%Z then Z.shiftl (Zpos m) e
               else Z.shiftr (Zpos m) (- e) in
      Return (if s then (- v)%Z else v)
  | S754_infinity _ => Raise OverflowError
  | S754_nan => Raise (ValueError "cannot convert float NaN to integer")
  end.

(** [math.ceil(x)]. *)
Definition ceil (x : float) : result Z :=
  match Prim2SF x with
  | S754_zero _ => Return 0%Z
  | S754_finite s m e =>
      if (0 <=? e)%Z then
        let v := Z.shiftl (Zpos m) e in Return (if s then (- v)%Z else v)
      else
        let q := Z.shiftr (Zpos m) (- e) in
        let r := (Zpos m mod 2 ^ (- e))%Z in
        Return (if s then (- q)%Z
                else if (r =? 0)%Z then q else (q + 1)%Z)
  | S754_infinity _ => Raise OverflowError
  | S754_nan => Raise (ValueError "cannot convert float NaN to integer")
  end.

(** [round(x)]: nearest integer, ties to even. *)
Definition round (x : float) : result Z :=
  match Prim2SF x with
  | S754_zero _ => Return 0%Z
  | S754_finite s m e =>
      let v :=
        if (0 <=? e)%Z then Z.shiftl (Zpos m) e
        else
          let q := Z.shiftr (Zpos m) (- e) in
          let r := (Zpos m mod 2 ^ (- e))%Z in
          let half := (2 ^ (- e - 1))%Z in
          if (r <? half)%Z then q
          else if (half <? r)%Z then (q + 1)%Z
          else if Z.even q then q else (q + 1)%Z in
      Return (if s then (- v)%Z else v)
  | S754_infinity _ => Raise OverflowError
  | S754_nan => Raise (ValueError "cannot convert float NaN to integer")
  end.

(** C's [floor]. *)
Definition floor (x : float) : float :=
  match Prim2SF x with
  | S754_finite s m e =>
      if (0 <=? e)%Z then x
      else
        let q := Z.shiftr (Zpos m) (- e) in
        let r := (Zpos m mod 2 ^ (- e))%Z in
        if s then of_Z (- (if (r =? 0)%Z then q else q + 1))
        else of_Z q
  | _ => x
  end.

(** C's [fmod]: the exact remainder, with the sign of [x]. *)
Definition fmod (x y : float) : float :=
  match Prim2SF x, Prim2SF y with
  | S754_nan, _ | _, S754_nan => nan
  | S754_infinity _, _ => nan
  | _, S754_zero _ => nan
  | _, S754_infinity _ => x
  | S754_zero _, _ => x
  | S754_finite sx mx ex, S754_finite _ my ey =>
      let e := Z.min ex ey in
      let X := Z.shiftl (Zpos mx) (ex - e) in
      let Y := Z.shiftl (Zpos my) (ey - e) in
      let r := (X mod Y)%Z in
      SF2Prim (binary_normalize prec emax (if sx then (- r)%Z else r) e sx)
  end.

(** C's [copysign(0.0, y)]. *)
Definition copysign_zero (y : float) : float :=
  if signbit y then (-0) else 0.

(** [vx // wx] (CPython's [_float_div_mod]). *)
Definition floordiv (vx wx : float) : result float :=
  if wx =? 0 then Raise ZeroDivisionError
  else
    let mod_ := fmod vx wx in
    let div := (vx - mod_) / wx in
    let div :=
      if negb (mod_ =? 0) then
        if xorb (wx <? 0) (mod_ <? 0) then div - 1 else div
      else div in
    if negb (div =? 0) then
      let fl := floor div in
      Return (if 0.5 <? div - fl then fl + 1 else fl)
    else Return (copysign_zero (vx / wx)).

(** [vx % wx] (CPython's [float_rem]). *)
Definition mod_ (vx wx : float) : result float :=
  if wx =? 0 then Raise ZeroDivisionError
  else
    let m := fmod vx wx in
    if negb (m =? 0) then
      Return (if xorb (wx <? 0) (m <? 0) then m + wx else m)
    else Return (copysign_zero wx).

(** [max(a, b)]: the first argument unless the second is strictly
    larger. *)
Definition max (a b : float) : float := if a <? b then b else a.

Definition SQ_IN_PER_SQ_FT : float := 144.
Definition SCALE_IN_PER_PT : float := 629 / 799.
Definition SCALE_PT_PER_IN : float := 1 / SCALE_IN_PER_PT.

Definition pts_to_ft_in (pts : float) (round_to_frac : Z) : result (Z * float) :=
  let inches := pts * SCALE_IN_PER_PT in
  let* q := floordiv inches 12 in
  let* ft := to_int q in
  let* ft12 := of_int (ft * 12) in
  let in_rem := inches - ft12 in
  let* step := truediv_int 1 round_to_frac in
  let* a := truediv in_rem step in
  let* k := round a in
  let* kf := of_int k in
  let in_rem := kf * step in
  if 12 <=? in_rem then Return ((ft + 1)%Z, in_rem - 12)
  else Return (ft, in_rem).

Definition ft_in_to_pts (feet : Z) (inches : float) : result float :=
  let* f := of_int (feet * 12) in
  Return ((f + inches) * SCALE_PT_PER_IN).

Definition convert_sq_in_to_ft_in (square_inches : float) : result (Z * float) :=
  let* q := floordiv square_inches SQ_IN_PER_SQ_FT in
  let* sq_ft := to_int q in
  let* rem_in := mod_ square_inches SQ_IN_PER_SQ_FT in
  Return (sq_ft, rem_in).

Definition panels_needed_for_area_sq_in
    (total_area_sq_in panel_sq_ft waste_pct : float) : result Z :=
  if panel_sq_ft <=? 0 then Raise (ValueError "panel_sq_ft must be > 0")
  else
    let total_sq_ft := max 0 total_area_sq_in / SQ_IN_PER_SQ_FT in
    let total_sq_ft := total_sq_ft * (1 + waste_pct) in
    let* q := truediv total_sq_ft panel_sq_ft in
    ceil q.


(** [x ** 2]: the product [x * x] (what [pow] returns when it rounds
    correctly); an overflowing result is an [OverflowError]. *)
Definition pow2 (x : float) : result float :=
  let r := x * x in
  if is_infinite r && negb (is_infinite x) then Raise OverflowError
  else Return r.

(** [math.sqrt]. *)
Definition sqrt_ (x : float) : result float :=
  if x <? 0 then Raise (ValueError "math domain error")
  else Return (PrimFloat.sqrt x).

(** [math.isclose(a, b, rel_tol=.., abs_tol=..)]. *)
Definition isclose (a b rel_tol abs_tol : float) : bool :=
  if a =? b then true
  else if is_infinite a || is_infinite b then false
  else
    let diff := abs (b - a) in
    ((diff <=? abs (rel_tol * b)) || (diff <=? abs (rel_tol * a)))
    || (diff <=? abs_tol).

Module TriSection.
Record t : Type := Build { base_in : float; pitch_rise : float; pitch_run : float }.

Definition init (base_in pitch_rise pitch_run : float) : result t :=
  if base_in <? 0 then Raise (ValueError "base_in must be ≥ 0")
  else Return (Build base_in pitch_rise pitch_run).

Definition pitch (self : t) : result float :=
  truediv (pitch_rise self) (pitch_run self).

Definition area_sq_in (self : t) : result float :=
  let* p := pitch self in
  let h := base_in self / 2 * p in
  Return (0.5 * base_in self * h).

Definition equivalent_difference (self inner : t) : result t :=
  let* p_self := pitch self in
  let* p_inner := pitch inner in
  if negb (isclose p_self p_inner 1e-9 1e-12)
  then Raise (ValueError "Pitches must match to subtract as a single triangle.")
  else if base_in self <? base_in inner
  then Raise (ValueError "Inner base must be ≤ outer base.")
  else
    let* o2 := pow2 (base_in self) in
    let* i2 := pow2 (base_in inner) in
    let* b_eq := sqrt_ (o2 - i2) in
    init b_eq (pitch_rise self) (pitch_run self).
End TriSection.

End F64.

(** * Properties *)

(** ** The numeric primitives *)

Section PyFacts.

Lemma ltb_true x y : Py.ltb x y = true <-> x < y.
Proof. unfold Py.ltb. destruct (Rlt_dec x y); split; intros; try lra; congruence. Qed.

Lemma ltb_false x y : Py.ltb x y = false <-> y <= x.
Proof. unfold Py.ltb. destruct (Rlt_dec x y); split; intros; try lra; congruence. Qed.

Lemma leb_true x y : Py.leb x y = true <-> x <= y.
Proof. unfold Py.leb. destruct (Rle_dec x y); split; intros; try lra; congruence. Qed.

Lemma leb_false x y : Py.leb x y = false <-> y < x.
Proof. unfold Py.leb. destruct (Rle_dec x y); split; intros; try lra; congruence. Qed.

Lemma eqb_true x y : Py.eqb x y = true <-> x = y.
Proof. unfold Py.eqb. destruct (Req_dec_T x y); split; intros; try lra; congruence. Qed.

Lemma eqb_false x y : Py.eqb x y = false <-> x <> y.
Proof. unfold Py.eqb. destruct (Req_dec_T x y); split; intros; try lra; congruence. Qed.

Lemma floor_bounds x : IZR (Py.floor x) <= x < IZR (Py.floor x) + 1.
Proof. unfold Py.floor. destruct (base_Int_part x). lra. Qed.

Lemma floor_unique x z : IZR z <= x < IZR z + 1 -> Py.floor x = z.
Proof.
  intros Hz. unfold Py.floor. symmetry. apply Int_part_spec. lra.
Qed.

Lemma floor_IZR z : Py.floor (IZR z) = z.
Proof. apply floor_unique. lra. Qed.

Lemma ceil_bounds x : IZR (Py.ceil x) - 1 < x <= IZR (Py.ceil x).
Proof.
  unfold Py.ceil. rewrite opp_IZR.
  destruct (base_Int_part (- x)). lra.
Qed.

Lemma ceil_unique x z : IZR z - 1 < x <= IZR z -> Py.ceil x = z.
Proof.
  intros Hz. unfold Py.ceil.
  rewrite <- (Int_part_spec (- x) (- z)); [lia |].
  rewrite opp_IZR. lra.
Qed.

Lemma max_Rmax a b : Py.max a b = Rmax a b.
Proof.
  unfold Py.max, Py.ltb, Rmax.
  destruct (Rlt_dec a b), (Rle_dec a b); lra.
Qed.

Lemma max_0_nonneg b : 0 <= Py.max 0 b.
Proof. rewrite max_Rmax. apply Rmax_l. Qed.

Lemma round_nearest x : Rabs (x - IZR (Py.round x)) <= 1 / 2.
Proof.
  unfold Py.round. pose proof (floor_bounds x) as Hf.
  destruct (Py.ltb (x - IZR (Py.floor x)) (1 / 2)) eqn:E1.
  - apply ltb_true in E1. apply Rabs_le. lra.
  - apply ltb_false in E1.
    assert (Hup : Rabs (x - IZR (Py.floor x + 1)) <= 1 / 2)
      by (rewrite plus_IZR; apply Rabs_le; lra).
    destruct (Py.ltb (1 / 2) (x - IZR (Py.floor x))) eqn:E2; [exact Hup |].
    apply ltb_false in E2.
    destruct (Z.even (Py.floor x)); [apply Rabs_le; lra | exact Hup].
Qed.

Lemma round_IZR z : Py.round (IZR z) = z.
Proof.
  unfold Py.round. rewrite floor_IZR.
  replace (IZR z - IZR z) with 0 by lra.
  assert (H : Py.ltb 0 (1 / 2) = true) by (apply ltb_true; lra).
  now rewrite H.
Qed.

(** Rounding never passes an integer that bounds the argument. *)
Lemma round_le_IZR x z : x <= IZR z -> (Py.round x <= z)%Z.
Proof.
  intros Hx. pose proof (floor_bounds x) as Hf.
  assert (Hfz : (Py.floor x <= z)%Z) by (apply le_IZR; lra).
  destruct (Z.eq_dec (Py.floor x) z) as [E|Hne].
  - rewrite E in Hf. assert (x = IZR z) by lra. subst x.
    rewrite round_IZR. lia.
  - unfold Py.round.
    destruct (Py.ltb _ _); [lia |].
    destruct (Py.ltb _ _); [lia |].
    destruct (Z.even _); lia.
Qed.

Lemma round_ge_IZR x z : IZR z <= x -> (z <= Py.round x)%Z.
Proof.
  intros Hx. pose proof (floor_bounds x) as Hf.
  assert (Hfz : (z <= Py.floor x)%Z).
  { apply Z.lt_succ_r. apply lt_IZR. rewrite succ_IZR. lra. }
  unfold Py.round.
  destruct (Py.ltb _ _); [lia |].
  destruct (Py.ltb _ _); [lia |].
  destruct (Z.even _); lia.
Qed.

Lemma Rabs_le_inv a b : Rabs a <= b -> - b <= a <= b.
Proof. unfold Rabs. destruct (Rcase_abs a); lra. Qed.

End PyFacts.

(** ** Unit conversion *)

(** C10: over exact arithmetic, for every real [x],
    [convert_sq_in_to_ft_in x] is the pair
    [(ft, rem)] with [ft] the floor of [x / 144], [rem = x - 144 * ft]
    in the half-open interval from 0 to 144, and [144 * ft + rem = x];
    [ft] is negative for negative [x], and is [-1] on the interval from
    -144 up to 0.  Hence a wall whose openings exceed its sections reports,
    through [siding_area_ft_in], a negative feet component with a
    non-negative remainder. *)
Theorem convert_sq_in_to_ft_in_floor_mod :
  (forall x : R,
     let '(ft, rem) := convert_sq_in_to_ft_in x in
     IZR ft <= x / 144 < IZR ft + 1
     /\ rem = x - 144 * IZR ft
     /\ 0 <= rem < 144
     /\ 144 * IZR ft + rem = x
     /\ (x < 0 -> (ft < 0)%Z)
     /\ (x < -144 -> (ft < -1)%Z)
     /\ (-144 <= x < 0 -> ft = (-1)%Z))
  /\ (forall (w : Wall.t) (s o : R),
        Wall.section_area_sq_in w = Return s ->
        Wall.opening_area_sq_in w = Return o ->
        s < o ->
        exists (ft : Z) (rem : R),
          Wall.siding_area_ft_in w = Return (ft, rem)
          /\ (ft < 0)%Z /\ 0 <= rem < 144
          /\ 144 * IZR ft + rem = s - o).
Proof.
  assert (Hconv : forall x : R,
     let '(ft, rem) := convert_sq_in_to_ft_in x in
     IZR ft <= x / 144 < IZR ft + 1
     /\ rem = x - 144 * IZR ft
     /\ 0 <= rem < 144
     /\ 144 * IZR ft + rem = x
     /\ (x < 0 -> (ft < 0)%Z)
     /\ (x < -144 -> (ft < -1)%Z)
     /\ (-144 <= x < 0 -> ft = (-1)%Z)).
  { intros x. cbn. unfold Py.mod_, Py.floordiv, SQ_IN_PER_SQ_FT.
    pose proof (floor_bounds (x / 144)) as Hf.
    set (ft := Py.floor (x / 144)) in *.
    repeat split; try lra.
    - intros Hx. apply lt_IZR. lra.
    - intros Hx. apply lt_IZR. lra.
    - intros Hx. apply floor_unique. lra. }
  split; [exact Hconv |].
  intros w s o Hs Ho Hlt.
  unfold Wall.siding_area_ft_in, Wall.siding_area_sq_in.
  rewrite Hs, Ho. cbn [bind].
  specialize (Hconv (s - o)).
  destruct (convert_sq_in_to_ft_in (s - o)) as [ft rem].
  exists ft, rem.
  destruct Hconv as (_ & _ & Hrem & Hsum & Hneg & _).
  repeat split; try lra. apply Hneg. lra.
Qed.

(** C6: over exact arithmetic, [panels_needed_for_area_sq_in] raises its
    [ValueError] exactly when the panel coverage is at most zero;
    otherwise it returns the ceiling of [(max(0, area) / 144) * (1 + waste) / panel], so a negative
    area counts as zero; 10000 sq in with 32 sq ft panels and 10 percent
    waste needs 3 panels. *)
Theorem panels_needed_for_area_sq_in_spec :
  (forall area panel waste : R,
     (panel <= 0 ->
      panels_needed_for_area_sq_in area panel waste
      = Raise (ValueError "panel_sq_ft must be > 0"))
     /\ (0 < panel ->
         exists n : Z,
           panels_needed_for_area_sq_in area panel waste = Return n
           /\ IZR n - 1 < Rmax 0 area / 144 * (1 + waste) / panel <= IZR n))
  /\ (forall area panel waste : R,
        area <= 0 -> 0 < panel ->
        panels_needed_for_area_sq_in area panel waste = Return 0%Z)
  /\ panels_needed_for_area_sq_in 10000 32 0.10 = Return 3%Z.
Proof.
  assert (Hgen : forall area panel waste : R,
     (panel <= 0 ->
      panels_needed_for_area_sq_in area panel waste
      = Raise (ValueError "panel_sq_ft must be > 0"))
     /\ (0 < panel ->
         exists n : Z,
           panels_needed_for_area_sq_in area panel waste = Return n
           /\ IZR n - 1 < Rmax 0 area / 144 * (1 + waste) / panel <= IZR n)).
  { intros area panel waste. unfold panels_needed_for_area_sq_in. split.
    - intros Hp. apply leb_true in Hp. now rewrite Hp.
    - intros Hp. apply leb_false in Hp. rewrite Hp.
      eexists. split; [reflexivity |].
      rewrite max_Rmax. unfold SQ_IN_PER_SQ_FT. apply ceil_bounds. }
  split; [exact Hgen |]. split.
  - intros area panel waste Ha Hp.
    destruct (Hgen area panel waste) as [_ H].
    destruct (H Hp) as (n & -> & Hn). f_equal.
    rewrite Rmax_left in Hn by lra.
    replace (0 / 144 * (1 + waste) / panel) with 0 in Hn
      by (field; lra).
    assert ((n - 1 < 0)%Z) by (apply lt_IZR; rewrite minus_IZR; lra).
    assert ((0 <= n)%Z) by (apply le_IZR; lra).
    lia.
  - unfold panels_needed_for_area_sq_in.
    assert (Hp : Py.leb 32 0 = false) by (apply leb_false; lra).
    rewrite Hp. f_equal. apply ceil_unique.
    rewrite max_Rmax, Rmax_right by lra. unfold SQ_IN_PER_SQ_FT. lra.
Qed.

(** What [pts_to_ft_in] computes for a positive [round_to_frac]: the whole
    feet [f0], the count [k] of steps nearest to the remainder, and the
    carry. *)
Lemma pts_to_ft_in_run (p : R) (n : Z) :
  (0 < n)%Z ->
  let inches := p * (629 / 799) in
  let f0 := Py.floor (inches / 12) in
  let k := Py.round ((inches - IZR f0 * 12) * IZR n) in
  pts_to_ft_in p n
  = (if Py.leb 12 (IZR k / IZR n)
     then Return ((f0 + 1)%Z, IZR k / IZR n - 12)
     else Return (f0, IZR k / IZR n))
  /\ (0 <= k <= 12 * n)%Z
  /\ Rabs ((inches - IZR f0 * 12) * IZR n - IZR k) <= 1 / 2
  /\ IZR f0 <= inches / 12 < IZR f0 + 1.
Proof.
  intros Hn inches f0 k.
  assert (HnR : 0 < IZR n) by (apply IZR_lt; lia).
  pose proof (floor_bounds (inches / 12)) as Hf. fold f0 in Hf.
  assert (Hrem : 0 <= inches - IZR f0 * 12 < 12) by lra.
  repeat split; try lra.
  - unfold pts_to_ft_in, Py.truediv, Py.floordiv, SCALE_IN_PER_PT.
    fold inches. fold f0.
    assert (Hz : Py.eqb (IZR n) 0 = false) by (apply eqb_false; lra).
    rewrite Hz. cbn [bind].
    replace ((inches - IZR f0 * 12) / (1 / IZR n))
      with ((inches - IZR f0 * 12) * IZR n) by (field; lra).
    fold k.
    replace (IZR k * (1 / IZR n)) with (IZR k / IZR n) by (field; lra).
    reflexivity.
  - apply (round_ge_IZR _ 0). nra.
  - apply round_le_IZR. rewrite mult_IZR. nra.
  - apply round_nearest.
Qed.

(** C7: over exact arithmetic, for every points value and every positive
    [round_to_frac],
    [pts_to_ft_in] returns [(ft, r)] where, with [inches = p * 629/799]
    and [f0] the whole feet in [inches], the remainder [inches - 12 f0]
    is rounded to the nearest multiple [k / round_to_frac]; when that
    reaches 12 one foot is carried and 12 subtracted.  The returned
    inches lie in the half-open interval from 0 to 12, the feet are an
    integer, and the pair is within half a step of [inches]. *)
Theorem pts_to_ft_in_spec (p : R) (n : Z) :
  (0 < n)%Z ->
  exists (ft : Z) (r : R),
    pts_to_ft_in p n = Return (ft, r)
    /\ 0 <= r < 12
    /\ Rabs (IZR ft * 12 + r - p * (629 / 799)) <= 1 / (2 * IZR n)
    /\ exists f0 k : Z,
         IZR f0 <= p * (629 / 799) / 12 < IZR f0 + 1
         /\ Rabs ((p * (629 / 799) - IZR f0 * 12) * IZR n - IZR k) <= 1 / 2
         /\ ((IZR k / IZR n < 12 /\ ft = f0 /\ r = IZR k / IZR n)
             \/ (12 <= IZR k / IZR n /\ ft = (f0 + 1)%Z
                 /\ r = IZR k / IZR n - 12)).
Proof.
  intros Hn.
  destruct (pts_to_ft_in_run p n Hn) as (Hrun & Hk & Hnear & Hf0).
  set (inches := p * (629 / 799)) in *.
  set (f0 := Py.floor (inches / 12)) in *.
  set (k := Py.round ((inches - IZR f0 * 12) * IZR n)) in *.
  assert (HnR : 0 < IZR n) by (apply IZR_lt; lia).
  assert (Hk0 : 0 <= IZR k) by (apply IZR_le; lia).
  assert (Hk12 : IZR k <= 12 * IZR n)
    by (rewrite <- (mult_IZR 12 n); apply IZR_le; lia).
  assert (Hq0 : 0 <= IZR k / IZR n)
    by (apply Rmult_le_pos; [lra | left; now apply Rinv_0_lt_compat]).
  assert (Hq12 : IZR k / IZR n <= 12).
  { apply (Rmult_le_reg_r (IZR n)); [lra |].
    replace (IZR k / IZR n * IZR n) with (IZR k) by (field; lra). lra. }
  assert (Hdist : Rabs (IZR f0 * 12 + IZR k / IZR n - inches)
                  <= 1 / (2 * IZR n)).
  { replace (IZR f0 * 12 + IZR k / IZR n - inches)
      with (- (((inches - IZR f0 * 12) * IZR n - IZR k) / IZR n))
      by (field; lra).
    rewrite Rabs_Ropp. unfold Rdiv at 1.
    rewrite Rabs_mult, (Rabs_pos_eq (/ IZR n))
      by (left; now apply Rinv_0_lt_compat).
    replace (1 / (2 * IZR n)) with (1 / 2 * / IZR n) by (field; lra).
    apply Rmult_le_compat_r; [left; now apply Rinv_0_lt_compat | exact Hnear]. }
  destruct (Py.leb 12 (IZR k / IZR n)) eqn:E.
  - apply leb_true in E.
    exists (f0 + 1)%Z, (IZR k / IZR n - 12). split; [exact Hrun |].
    split; [lra |]. split.
    + rewrite plus_IZR.
      replace ((IZR f0 + 1) * 12 + (IZR k / IZR n - 12) - inches)
        with (IZR f0 * 12 + IZR k / IZR n - inches) by ring.
      exact Hdist.
    + exists f0, k. repeat split; try lra. right. repeat split; lra.
  - apply leb_false in E.
    exists f0, (IZR k / IZR n). split; [exact Hrun |].
    split; [lra |]. split; [exact Hdist |].
    exists f0, k. repeat split; try lra. left. repeat split; lra.
Qed.

(** C8: over exact arithmetic, for every points value [p] and positive
    [round_to_frac],
    [ft_in_to_pts] applied to the pair returned by [pts_to_ft_in] is
    within half a step (half of [1 / round_to_frac] inch, times 799/629
    points per inch) of [p], and is [p] itself when [p] in inches is a
    whole number of steps. *)
Theorem ft_in_to_pts_pts_to_ft_in (p : R) (n : Z) :
  (0 < n)%Z ->
  exists (ft : Z) (r : R),
    pts_to_ft_in p n = Return (ft, r)
    /\ Rabs (ft_in_to_pts ft r - p) <= 1 / (2 * IZR n) * (799 / 629)
    /\ ((exists m : Z, p * SCALE_IN_PER_PT = IZR m / IZR n) ->
        ft_in_to_pts ft r = p).
Proof.
  intros Hn.
  destruct (pts_to_ft_in_run p n Hn) as (Hrun & Hk & Hnear & Hf0).
  set (inches := p * (629 / 799)) in *.
  set (f0 := Py.floor (inches / 12)) in *.
  set (k := Py.round ((inches - IZR f0 * 12) * IZR n)) in *.
  assert (HnR : 0 < IZR n) by (apply IZR_lt; lia).
  assert (Hpts : forall ft r,
             IZR ft * 12 + r = IZR f0 * 12 + IZR k / IZR n ->
             ft_in_to_pts ft r - p
             = - (((inches - IZR f0 * 12) * IZR n - IZR k) / IZR n)
               * (799 / 629)).
  { intros ft r E. unfold ft_in_to_pts, SCALE_PT_PER_IN, SCALE_IN_PER_PT.
    rewrite E. unfold inches. field. lra. }
  assert (Hgoal : forall ft r,
             IZR ft * 12 + r = IZR f0 * 12 + IZR k / IZR n ->
             Rabs (ft_in_to_pts ft r - p) <= 1 / (2 * IZR n) * (799 / 629)
             /\ ((exists m : Z, p * SCALE_IN_PER_PT = IZR m / IZR n) ->
                 ft_in_to_pts ft r = p)).
  { intros ft r E. rewrite (Hpts ft r E). split.
    - rewrite Rabs_mult, Rabs_Ropp, (Rabs_pos_eq (799 / 629)) by lra.
      apply Rmult_le_compat_r; [lra |].
      unfold Rdiv at 1.
      rewrite Rabs_mult, (Rabs_pos_eq (/ IZR n))
        by (left; now apply Rinv_0_lt_compat).
      replace (1 / (2 * IZR n)) with (1 / 2 * / IZR n) by (field; lra).
      apply Rmult_le_compat_r;
        [left; now apply Rinv_0_lt_compat | exact Hnear].
    - intros [m Hm]. unfold SCALE_IN_PER_PT in Hm. fold inches in Hm.
      assert (Hint : (inches - IZR f0 * 12) * IZR n
                     = IZR (m - f0 * 12 * n)).
      { rewrite minus_IZR, !mult_IZR, Hm. field. lra. }
      assert (Hk' : IZR k = (inches - IZR f0 * 12) * IZR n).
      { unfold k. rewrite Hint at 1. rewrite round_IZR. now rewrite Hint. }
      specialize (Hpts ft r E). rewrite Hk' in Hpts.
      replace ((inches - IZR f0 * 12) * IZR n - (inches - IZR f0 * 12) * IZR n)
        with 0 in Hpts by ring.
      unfold Rdiv in Hpts at 1. rewrite Rmult_0_l, Ropp_0, Rmult_0_l in Hpts.
      lra. }
  destruct (Py.leb 12 (IZR k / IZR n)) eqn:E.
  - exists (f0 + 1)%Z, (IZR k / IZR n - 12). split; [exact Hrun |].
    apply Hgoal. rewrite plus_IZR. ring.
  - exists f0, (IZR k / IZR n). split; [exact Hrun |].
    apply Hgoal. reflexivity.
Qed.

(** ** Triangle sections *)

Section TriSectionFacts.
Import TriSection.

Lemma init_Return b rise run :
  0 <= b -> init b rise run = Return (Build b rise run).
Proof.
  intros Hb. unfold init.
  assert (E : Py.ltb b 0 = false) by now apply ltb_false.
  now rewrite E.
Qed.

Lemma constructed_base_nonneg self : constructed self -> 0 <= base_in self.
Proof.
  intros (b & rise & run & H). unfold init in H.
  destruct (Py.ltb b 0) eqn:E; [discriminate |].
  apply ltb_false in E. injection H as <-. exact E.
Qed.

Lemma constructed_Build b rise run : 0 <= b -> constructed (Build b rise run).
Proof. intros Hb. exists b, rise, run. now apply init_Return. Qed.

Lemma pitch_Return self :
  pitch_run self <> 0 ->
  pitch self = Return (pitch_rise self / pitch_run self).
Proof.
  intros Hrun. unfold pitch, Py.truediv.
  apply eqb_false in Hrun. now rewrite Hrun.
Qed.

Lemma pitch_Raise self : pitch_run self = 0 -> pitch self = Raise ZeroDivisionError.
Proof.
  intros Hrun. unfold pitch, Py.truediv.
  apply eqb_true in Hrun. now rewrite Hrun.
Qed.

Lemma pitch_inv self pv :
  pitch self = Return pv ->
  pitch_run self <> 0 /\ pv = pitch_rise self / pitch_run self.
Proof.
  unfold pitch, Py.truediv.
  destruct (Py.eqb (pitch_run self) 0) eqn:E; [discriminate |].
  apply eqb_false in E. intros [= <-]. now split.
Qed.

(** [math.isclose] with a non-negative relative tolerance is the usual
    closeness test. *)
Lemma isclose_iff a b rel_tol abs_tol :
  0 <= rel_tol ->
  Py.isclose a b rel_tol abs_tol = true
  <-> Rabs (a - b) <= Rmax (rel_tol * Rmax (Rabs a) (Rabs b)) abs_tol.
Proof.
  intros Hrel. unfold Py.isclose.
  rewrite (Rabs_minus_sym a b).
  rewrite !Rabs_mult, (Rabs_pos_eq rel_tol) by exact Hrel.
  pose proof (Rabs_pos a) as Ha. pose proof (Rabs_pos b) as Hb.
  pose proof (Rabs_pos (b - a)) as Hd.
  assert (Hmax : rel_tol * Rmax (Rabs a) (Rabs b)
                 = Rmax (rel_tol * Rabs a) (rel_tol * Rabs b))
    by (symmetry; now apply RmaxRmult).
  rewrite Hmax.
  destruct (Py.eqb a b) eqn:E.
  - apply eqb_true in E. subst b. split; [intros _ | reflexivity].
    replace (a - a) with 0 in * by ring. rewrite Rabs_R0.
    eapply Rle_trans; [| apply Rmax_l]. eapply Rle_trans; [| apply Rmax_l].
    now apply Rmult_le_pos.
  - rewrite !orb_true_iff, !leb_true.
    generalize dependent (Rabs (b - a)). intros d _.
    generalize dependent (rel_tol * Rabs a).
    generalize dependent (rel_tol * Rabs b). intros rb ra _.
    unfold Rmax. repeat destruct (Rle_dec _ _); lra.
Qed.

End TriSectionFacts.

Section EquivalentDifference.
Import TriSection.

(** With both pitches defined the method is its two guards followed by
    the square root and the constructor. *)
Lemma equivalent_difference_run outer inner :
  pitch_run outer <> 0 -> pitch_run inner <> 0 ->
  equivalent_difference outer inner
  = if negb (Py.isclose (pitch_rise outer / pitch_run outer)
               (pitch_rise inner / pitch_run inner) 1e-9 1e-12)
    then Raise pitch_mismatch
    else if Py.ltb (base_in outer) (base_in inner) then Raise invalid_geometry
    else
      let* b_eq := Py.sqrt (base_in outer ^ 2 - base_in inner ^ 2) in
      init b_eq (pitch_rise outer) (pitch_run outer).
Proof.
  intros Ho Hi. unfold equivalent_difference.
  now rewrite (pitch_Return outer Ho), (pitch_Return inner Hi).
Qed.

Lemma sqrt_then_init outer inner :
  0 <= base_in inner <= base_in outer ->
  (let* b_eq := Py.sqrt (base_in outer ^ 2 - base_in inner ^ 2) in
   init b_eq (pitch_rise outer) (pitch_run outer))
  = Return (Build (sqrt (base_in outer ^ 2 - base_in inner ^ 2))
              (pitch_rise outer) (pitch_run outer)).
Proof.
  intros Hb. unfold Py.sqrt.
  assert (E : Py.ltb (base_in outer ^ 2 - base_in inner ^ 2) 0 = false)
    by (apply ltb_false; nra).
  rewrite E. cbn [bind]. apply init_Return, sqrt_pos.
Qed.

Lemma area_sq_in_Return self :
  pitch_run self <> 0 ->
  area_sq_in self
  = Return (0.5 * base_in self
            * (base_in self / 2 * (pitch_rise self / pitch_run self))).
Proof.
  intros Hrun. unfold area_sq_in. now rewrite (pitch_Return self Hrun).
Qed.

Lemma isclose_refl p rel_tol abs_tol : Py.isclose p p rel_tol abs_tol = true.
Proof.
  unfold Py.isclose.
  assert (E : Py.eqb p p = true) by now apply eqb_true.
  now rewrite E.
Qed.

Lemma equivalent_difference_Return outer inner :
  pitch_run outer <> 0 -> pitch_run inner <> 0 ->
  Py.isclose (pitch_rise outer / pitch_run outer)
    (pitch_rise inner / pitch_run inner) 1e-9 1e-12 = true ->
  0 <= base_in inner <= base_in outer ->
  equivalent_difference outer inner
  = Return (Build (sqrt (base_in outer ^ 2 - base_in inner ^ 2))
              (pitch_rise outer) (pitch_run outer)).
Proof.
  intros Ho Hi Hclose Hb.
  rewrite (equivalent_difference_run outer inner Ho Hi), Hclose.
  cbn [negb].
  assert (E : Py.ltb (base_in outer) (base_in inner) = false)
    by (apply ltb_false; lra).
  rewrite E. now apply sqrt_then_init.
Qed.

End EquivalentDifference.

(** C1: for triangle sections [outer] and [inner] with the same pitch
    (both ratios rise/run exist and are equal) and
    [inner.base_in <= outer.base_in], [equivalent_difference] returns a
    triangle whose base is the square root of the difference of the
    squared bases, whose rise and run are those of [outer], and whose area
    is exactly [outer]'s area minus [inner]'s. *)
Theorem equivalent_difference_area (outer inner : TriSection.t) (pv : R) :
  TriSection.constructed outer ->
  TriSection.constructed inner ->
  TriSection.pitch outer = Return pv ->
  TriSection.pitch inner = Return pv ->
  TriSection.base_in inner <= TriSection.base_in outer ->
  exists (net : TriSection.t) (a_outer a_inner a_net : R),
    TriSection.equivalent_difference outer inner = Return net
    /\ TriSection.base_in net
       = sqrt (TriSection.base_in outer ^ 2 - TriSection.base_in inner ^ 2)
    /\ TriSection.pitch_rise net = TriSection.pitch_rise outer
    /\ TriSection.pitch_run net = TriSection.pitch_run outer
    /\ TriSection.area_sq_in outer = Return a_outer
    /\ TriSection.area_sq_in inner = Return a_inner
    /\ TriSection.area_sq_in net = Return a_net
    /\ a_net = a_outer - a_inner.
Proof.
  intros _ Hci Hpo Hpi Hle.
  pose proof (constructed_base_nonneg inner Hci) as Hbi.
  destruct (pitch_inv outer pv Hpo) as [Hro Epo].
  destruct (pitch_inv inner pv Hpi) as [Hri Epi].
  set (d := TriSection.base_in outer ^ 2 - TriSection.base_in inner ^ 2).
  assert (Hd : 0 <= d) by (unfold d; nra).
  exists (TriSection.Build (sqrt d) (TriSection.pitch_rise outer)
            (TriSection.pitch_run outer)).
  do 3 eexists.
  split.
  { apply equivalent_difference_Return; try assumption; [| lra].
    rewrite <- Epo, <- Epi. apply isclose_refl. }
  split; [reflexivity |]. split; [reflexivity |]. split; [reflexivity |].
  split; [now apply area_sq_in_Return |].
  split; [now apply area_sq_in_Return |].
  split; [now apply area_sq_in_Return |].
  cbn [TriSection.base_in TriSection.pitch_rise TriSection.pitch_run].
  rewrite <- Epo, <- Epi.
  assert (Hhalf : 0.5 = 1 / 2) by lra. rewrite Hhalf.
  transitivity (sqrt d * sqrt d * pv / 4); [field |].
  rewrite (sqrt_sqrt d Hd). unfold d. field.
Qed.

(** The demonstration pair of [main]: both constructors succeed and the
    difference is the triangle on the square-root base. *)
Lemma equivalent_difference_demo :
  TriSection.init 322.4 6 12 = Return (TriSection.Build 322.4 6 12)
  /\ TriSection.init 213.6 6 12 = Return (TriSection.Build 213.6 6 12)
  /\ TriSection.equivalent_difference
       (TriSection.Build 322.4 6 12) (TriSection.Build 213.6 6 12)
     = Return (TriSection.Build (sqrt (322.4 ^ 2 - 213.6 ^ 2)) 6 12).
Proof.
  split; [apply init_Return; lra |]. split; [apply init_Return; lra |].
  rewrite equivalent_difference_Return; cbn; try lra.
  - reflexivity.
  - apply isclose_refl.
Qed.

Lemma demo_base_bounds : 241.488 < sqrt (322.4 ^ 2 - 213.6 ^ 2) < 241.489.
Proof.
  split.
  - rewrite <- (sqrt_square 241.488) at 1 by lra.
    apply sqrt_lt_1_alt. lra.
  - rewrite <- (sqrt_square 241.489) at 1 by lra.
    apply sqrt_lt_1_alt. split; lra.
Qed.

(** C2, as the claim words it: the difference of the demonstration pair
    would have a base within 0.2 of 241.27.  It has not. *)
Lemma equivalent_difference_demo_base_not_241_27 :
  ~ (exists net : TriSection.t,
       TriSection.equivalent_difference
         (TriSection.Build 322.4 6 12) (TriSection.Build 213.6 6 12)
       = Return net
       /\ Rabs (TriSection.base_in net - 241.27) <= 0.2).
Proof.
  intros (net & Hnet & Hb).
  destruct equivalent_difference_demo as (_ & _ & Hdemo).
  rewrite Hdemo in Hnet. injection Hnet as <-. cbn [TriSection.base_in] in Hb.
  pose proof demo_base_bounds as Hbounds.
  cbn [pow] in Hbounds. apply Rabs_le_inv in Hb. lra.
Qed.

(** C2: for [outer = TriSection(322.4, 6, 12)] and
    [inner = TriSection(213.6, 6, 12)] the difference has base
    [sqrt(322.4^2 - 213.6^2)], which lies between 241.488 and 241.489,
    and its area equals [outer]'s area minus [inner]'s within 1e-6 (in
    fact exactly). *)
Theorem equivalent_difference_demo_spec :
  exists (outer inner net : TriSection.t) (a_outer a_inner a_net : R),
    TriSection.init 322.4 6 12 = Return outer
    /\ TriSection.init 213.6 6 12 = Return inner
    /\ TriSection.equivalent_difference outer inner = Return net
    /\ TriSection.base_in net = sqrt (322.4 ^ 2 - 213.6 ^ 2)
    /\ 241.488 < TriSection.base_in net < 241.489
    /\ TriSection.area_sq_in outer = Return a_outer
    /\ TriSection.area_sq_in inner = Return a_inner
    /\ TriSection.area_sq_in net = Return a_net
    /\ Rabs (a_net - (a_outer - a_inner)) <= 1e-6.
Proof.
  destruct equivalent_difference_demo as (Ho & Hi & Hdemo).
  do 6 eexists.
  split; [exact Ho |]. split; [exact Hi |]. split; [exact Hdemo |].
  split; [reflexivity |]. split; [exact demo_base_bounds |].
  split; [apply area_sq_in_Return; cbn; lra |].
  split; [apply area_sq_in_Return; cbn; lra |].
  split; [apply area_sq_in_Return; cbn; lra |].
  cbn [TriSection.base_in TriSection.pitch_rise TriSection.pitch_run].
  set (d := 322.4 ^ 2 - 213.6 ^ 2).
  assert (Hd : 0 <= d) by (unfold d; lra).
  assert (Hhalf : 0.5 = 1 / 2) by lra. rewrite Hhalf.
  replace (1 / 2 * sqrt d * (sqrt d / 2 * (6 / 12)))
    with (sqrt d * sqrt d / 8) by field.
  rewrite (sqrt_sqrt d Hd). unfold d.
  apply Rabs_le. lra.
Qed.

(** C3: over exact arithmetic, on triangles whose [pitch_run] is not
    zero, [equivalent_difference] raises the pitch error when the two pitches
    are not equal within relative tolerance 1e-9 (absolute 1e-12),
    whatever the bases; raises the base error when the pitches are that
    close and [inner.base_in > outer.base_in]; and returns a triangle in
    every other case.  The two errors are distinct, and [outer - inner]
    hands the same outcome to its caller. *)
Theorem equivalent_difference_outcomes (outer inner : TriSection.t) :
  TriSection.constructed outer ->
  TriSection.constructed inner ->
  TriSection.pitch_run outer <> 0 ->
  TriSection.pitch_run inner <> 0 ->
  let p_outer := TriSection.pitch_rise outer / TriSection.pitch_run outer in
  let p_inner := TriSection.pitch_rise inner / TriSection.pitch_run inner in
  let close :=
    Rabs (p_outer - p_inner)
    <= Rmax (1e-9 * Rmax (Rabs p_outer) (Rabs p_inner)) 1e-12 in
  (~ close ->
   TriSection.equivalent_difference outer inner
   = Raise TriSection.pitch_mismatch)
  /\ (close -> TriSection.base_in outer < TriSection.base_in inner ->
      TriSection.equivalent_difference outer inner
      = Raise TriSection.invalid_geometry)
  /\ (close -> TriSection.base_in inner <= TriSection.base_in outer ->
      exists net : TriSection.t,
        TriSection.equivalent_difference outer inner = Return net)
  /\ TriSection.pitch_mismatch <> TriSection.invalid_geometry
  /\ TriSection.sub outer inner = TriSection.equivalent_difference outer inner.
Proof.
  intros _ Hci Hro Hri p_outer p_inner close.
  pose proof (constructed_base_nonneg inner Hci) as Hbi.
  pose proof (isclose_iff p_outer p_inner 1e-9 1e-12) as Hiff.
  assert (Hrel : 0 <= 1e-9) by lra. specialize (Hiff Hrel). fold close in Hiff.
  pose proof (equivalent_difference_run outer inner Hro Hri) as Hrun.
  fold p_outer p_inner in Hrun.
  repeat split.
  - intros Hnc. rewrite Hrun.
    destruct (Py.isclose p_outer p_inner 1e-9 1e-12) eqn:E; [| reflexivity].
    exfalso. apply Hnc, Hiff. reflexivity.
  - intros Hc Hlt. rewrite Hrun.
    apply Hiff in Hc. rewrite Hc. cbn [negb].
    apply ltb_true in Hlt. now rewrite Hlt.
  - intros Hc Hle. eexists.
    apply equivalent_difference_Return; try assumption; [| lra].
    now apply Hiff.
  - discriminate.
Qed.

(** ** Walls *)

Section WallFacts.

Lemma sum_gen_acc {A : Type} (f : A -> result R) xs acc :
  sum_gen f xs acc = let* s := sum_gen f xs 0 in Return (acc + s).
Proof.
  revert acc. induction xs as [|x xs IH]; intros acc; cbn.
  - f_equal. lra.
  - destruct (f x) as [e|a]; cbn; [reflexivity |].
    rewrite (IH (acc + a)), (IH (0 + a)).
    destruct (sum_gen f xs 0) as [e|s]; cbn; [reflexivity |].
    f_equal. lra.
Qed.

(** A generator whose items all evaluate sums to the sum of their
    values. *)
Lemma sum_gen_Forall2 {A : Type} (f : A -> result R) xs vs :
  Forall2 (fun x v => f x = Return v) xs vs ->
  sum_gen f xs 0 = Return (fold_right Rplus 0 vs).
Proof.
  induction 1 as [|x v xs vs Hx _ IH]; cbn; [reflexivity |].
  rewrite Hx. cbn. rewrite sum_gen_acc, IH. cbn. f_equal. lra.
Qed.

Lemma opening_area_sq_in_sum w :
  Wall.opening_area_sq_in w
  = Return (fold_right Rplus 0 (map Opening.area_sq_in (Wall.openings w))).
Proof.
  unfold Wall.opening_area_sq_in. apply sum_gen_Forall2.
  induction (Wall.openings w); constructor; auto.
Qed.

Lemma siding_area_sq_in_sum w areas :
  Forall2 (fun s a => Section_area_sq_in s = Return a) (Wall.sections w) areas ->
  Wall.siding_area_sq_in w
  = Return (fold_right Rplus 0 areas
            - fold_right Rplus 0 (map Opening.area_sq_in (Wall.openings w))).
Proof.
  intros Hareas. unfold Wall.siding_area_sq_in, Wall.section_area_sq_in.
  now rewrite (sum_gen_Forall2 _ _ _ Hareas), opening_area_sq_in_sum.
Qed.

Lemma oriented_siding_Return w d a :
  Wall.siding_area_sq_in w = Return a ->
  OrientedWall.siding_area_sq_in (OrientedWall.init w d)
  = Return (Rmax 0 a).
Proof.
  intros Hw. unfold OrientedWall.siding_area_sq_in. cbn.
  now rewrite Hw, <- max_Rmax.
Qed.

Lemma oriented_siding_rmap w d :
  OrientedWall.siding_area_sq_in (OrientedWall.init w d)
  = rmap (Rmax 0) (Wall.siding_area_sq_in w).
Proof.
  unfold OrientedWall.siding_area_sq_in, rmap. cbn.
  destruct (Wall.siding_area_sq_in w) as [e|a]; cbn; [reflexivity |].
  now rewrite max_Rmax.
Qed.

Lemma oriented_siding_nonneg ow v :
  OrientedWall.siding_area_sq_in ow = Return v -> 0 <= v.
Proof.
  unfold OrientedWall.siding_area_sq_in.
  destruct (Wall.siding_area_sq_in (OrientedWall.wall ow)) as [e|a]; cbn;
    [discriminate |].
  intros [= <-]. apply max_0_nonneg.
Qed.

(** One 10 by 10 rectangle under one 20 by 20 opening. *)
Lemma overcut_wall_siding :
  Wall.siding_area_sq_in
    (Wall.add_opening
       (Wall.add_section Wall.init (Rect (RectSection.init 10 10)))
       (Opening.init 20 20))
  = Return (-300).
Proof.
  rewrite (siding_area_sq_in_sum _ [10 * 10]).
  - cbn [Wall.add_opening Wall.add_section Wall.init Wall.openings
           Wall.sections app map fold_right Opening.area_sq_in
           Opening.width_in Opening.height_in].
    f_equal. unfold Opening.area_sq_in. cbn [Opening.width_in Opening.height_in]. lra.
  - repeat constructor.
Qed.

End WallFacts.

(** C4: a wall's [siding_area_sq_in] is the sum of its section areas
    minus the sum of its opening areas, unclamped (the wall of one 10 by
    10 rectangle and one 20 by 20 opening reports -300), while for every
    direction label the oriented wall reports the maximum of 0 and the
    wall's value (and raises when the wall does), hence never a negative
    one. *)
Theorem siding_area_sq_in_clamping :
  (forall (w : Wall.t) (areas : list R),
     Forall2 (fun s a => Section_area_sq_in s = Return a)
       (Wall.sections w) areas ->
     Wall.siding_area_sq_in w
     = Return (fold_right Rplus 0 areas
               - fold_right Rplus 0
                   (map Opening.area_sq_in (Wall.openings w))))
  /\ (exists (w : Wall.t) (v : R),
        Wall.siding_area_sq_in w = Return v /\ v < 0)
  /\ (forall (w : Wall.t) (d : string),
        OrientedWall.siding_area_sq_in (OrientedWall.init w d)
        = rmap (Rmax 0) (Wall.siding_area_sq_in w))
  /\ (forall (w : Wall.t) (d : string) (v : R),
        OrientedWall.siding_area_sq_in (OrientedWall.init w d) = Return v ->
        0 <= v).
Proof.
  split; [exact siding_area_sq_in_sum |].
  split.
  { eexists _, (-300). split; [exact overcut_wall_siding | lra]. }
  split; [exact oriented_siding_rmap |].
  intros w d v. apply oriented_siding_nonneg.
Qed.

(** ** The container *)

Section ContainerFacts.

Lemma sum_values_empty : sum_values ∅ = 0.
Proof. unfold sum_values. apply map_fold_empty. Qed.

(** Adding [a] under a key, new or present, adds [a] to the sum of the
    values. *)
Lemma sum_values_accumulate (out : gmap string R) (d : string) (a : R) :
  sum_values (<[d := default 0 (out !! d) + a]> out) = sum_values out + a.
Proof.
  unfold sum_values.
  assert (Hcomm : forall (m : gmap string R) (j1 j2 : string) (z1 z2 y : R),
             j1 ≠ j2 -> m !! j1 = Some z1 -> m !! j2 = Some z2 ->
             y + z2 + z1 = y + z1 + z2)
    by (intros; lra).
  destruct (out !! d) as [v|] eqn:E; cbn [default].
  - rewrite <- (insert_delete_eq out d (v + a)).
    rewrite map_fold_insert_L;
      [| apply Hcomm | apply lookup_delete_eq].
    rewrite (map_fold_delete_L _ _ d v out); [lra | apply Hcomm | exact E].
  - rewrite map_fold_insert_L; [lra | apply Hcomm | exact E].
Qed.

(** The two loops run in step: same exception at the same wall, and the
    running total is the sum of the dictionary's values. *)
Lemma breakdown_loop_total_loop ows (out : gmap string R) :
  rmap sum_values (WallContainer.breakdown_loop ows out)
  = WallContainer.total_loop None ows (sum_values out).
Proof.
  revert out. induction ows as [|ow ows IH]; intros out; cbn;
    [reflexivity |].
  destruct (OrientedWall.siding_area_sq_in ow) as [e|a]; cbn;
    [reflexivity |].
  rewrite <- (sum_values_accumulate out (OrientedWall.direction ow) a).
  apply IH.
Qed.

End ContainerFacts.

(** C9: for every container, summing the values of
    [breakdown_by_direction()] gives [total_siding_area_sq_in()] with no
    direction filter; the two calls also raise alike. *)
Theorem breakdown_by_direction_sum (c : WallContainer.t) :
  rmap sum_values (WallContainer.breakdown_by_direction c)
  = WallContainer.total_siding_area_sq_in c None.
Proof.
  unfold WallContainer.breakdown_by_direction,
    WallContainer.total_siding_area_sq_in.
  rewrite breakdown_loop_total_loop. now rewrite sum_values_empty.
Qed.

(** ** Direction labels *)

Section StrFacts.
Import Str.

Lemma isspace_lower_char c : isspace (lower_char c) = isspace c.
Proof. destruct c as [[] [] [] [] [] [] [] []]; reflexivity. Qed.

Lemma lower_char_idem c : lower_char (lower_char c) = lower_char c.
Proof. destruct c as [[] [] [] [] [] [] [] []]; reflexivity. Qed.

Lemma lower_idem s : lower (lower s) = lower s.
Proof.
  induction s as [|c s IH]; cbn [lower]; [reflexivity |].
  now rewrite lower_char_idem, IH.
Qed.

Lemma lstrip_lower s : lstrip (lower s) = lower (lstrip s).
Proof.
  induction s as [|c s IH]; cbn [lower lstrip]; [reflexivity |].
  rewrite isspace_lower_char. now destruct (isspace c).
Qed.

Lemma rstrip_lower s : rstrip (lower s) = lower (rstrip s).
Proof.
  induction s as [|c s IH]; cbn [lower rstrip]; [reflexivity |].
  rewrite IH, isspace_lower_char.
  destruct (rstrip s); cbn [lower]; [now destruct (isspace c) | reflexivity].
Qed.

Lemma strip_lower s : strip (lower s) = lower (strip s).
Proof. unfold strip. now rewrite lstrip_lower, rstrip_lower. Qed.

Lemma lstrip_all_space ws : all_space ws = true -> lstrip ws = EmptyString.
Proof.
  induction ws as [|c ws IH]; cbn [all_space lstrip]; [reflexivity |].
  intros [Hc Hws]%andb_prop. rewrite Hc. now apply IH.
Qed.

Lemma rstrip_all_space ws : all_space ws = true -> rstrip ws = EmptyString.
Proof.
  induction ws as [|c ws IH]; cbn [all_space rstrip]; [reflexivity |].
  intros [Hc Hws]%andb_prop. now rewrite (IH Hws), Hc.
Qed.

Lemma append_String c s t : String c s +:+ t = String c (s +:+ t).
Proof. reflexivity. Qed.

Lemma append_Empty t : EmptyString +:+ t = t.
Proof. reflexivity. Qed.

Lemma lstrip_app s t :
  lstrip (s +:+ t)
  = match lstrip s with
    | EmptyString => lstrip t
    | r => r +:+ t
    end.
Proof.
  induction s as [|c s IH]; [reflexivity |].
  rewrite append_String. cbn [lstrip].
  destruct (isspace c); [exact IH | reflexivity].
Qed.

Lemma rstrip_app_space s ws :
  all_space ws = true -> rstrip (s +:+ ws) = rstrip s.
Proof.
  intros Hws. induction s as [|c s IH].
  - rewrite append_Empty. now apply rstrip_all_space.
  - rewrite append_String. cbn [rstrip]. now rewrite IH.
Qed.

Lemma strip_pad w1 s w2 :
  all_space w1 = true -> all_space w2 = true ->
  strip (w1 +:+ s +:+ w2) = strip s.
Proof.
  intros H1 H2. unfold strip.
  rewrite lstrip_app, (lstrip_all_space w1 H1), lstrip_app.
  destruct (lstrip s) as [|c r] eqn:E.
  - now rewrite (lstrip_all_space w2 H2).
  - now apply rstrip_app_space.
Qed.

Lemma normalize_direction_lookup label key canon :
  lower (strip label) = key -> _DIR_MAP !! key = Some canon ->
  normalize_direction label = canon.
Proof. intros Hk Hm. unfold normalize_direction. now rewrite Hk, Hm. Qed.

End StrFacts.

Section DirectionFacts.

Lemma _DIR_MAP_None key :
  ~ In key ["n"; "north"; "s"; "south"; "e"; "east"; "w"; "west";
            "front"; "back"; "left"; "right"] ->
  _DIR_MAP !! key = None.
Proof.
  intros Hnot. unfold _DIR_MAP. apply not_elem_of_list_to_map_1.
  intros Hin. apply Hnot, list_elem_of_In. exact Hin.
Qed.

(** Two walls whose labels normalize to one key [k] share the entry
    [k], and nothing else is in the dictionary. *)
Lemma breakdown_two_walls w1 w2 d1 d2 k a1 a2 :
  normalize_direction d1 = k -> normalize_direction d2 = k ->
  Wall.siding_area_sq_in w1 = Return a1 ->
  Wall.siding_area_sq_in w2 = Return a2 ->
  WallContainer.breakdown_by_direction
    (WallContainer.add_wall
       (WallContainer.add_wall WallContainer.init w1 d1) w2 d2)
  = Return {[ k := Rmax 0 a1 + Rmax 0 a2 ]}.
Proof.
  intros Hd1 Hd2 H1 H2.
  unfold WallContainer.breakdown_by_direction, WallContainer.add_wall.
  cbn [WallContainer._walls WallContainer.init app
         WallContainer.breakdown_loop].
  rewrite (oriented_siding_Return w1 d1 a1 H1). cbn [bind].
  rewrite (oriented_siding_Return w2 d2 a2 H2). cbn [bind].
  cbn [OrientedWall.init OrientedWall.direction].
  rewrite Hd1, Hd2. f_equal.
  rewrite lookup_empty, lookup_insert_eq. cbn [default].
  rewrite insert_insert_eq, insert_empty. f_equal. unfold Datatypes.id. lra.
Qed.

End DirectionFacts.

(** C5: [normalize_direction] trims, lower-cases and then maps [n], [s],
    [e], [w] and the eight full words to their full form; any other label
    comes back trimmed and lower-cased; padding with whitespace and
    changing case never change the result.  Hence walls added as "back"
    and "Back " share the single key "back" of [breakdown_by_direction],
    walls added as "n" and "north" share the single key "north", and the
    entry is the sum of their clamped areas. *)
Theorem normalize_direction_spec :
  (forall label key canon : string,
     In (key, canon)
       [("n", "north"); ("s", "south"); ("e", "east"); ("w", "west");
        ("north", "north"); ("south", "south"); ("east", "east");
        ("west", "west"); ("front", "front"); ("back", "back");
        ("left", "left"); ("right", "right")] ->
     (Str.lower (Str.strip label) = key -> normalize_direction label = canon)
     /\ normalize_direction key = canon)
  /\ (forall label : string,
        ~ In (Str.lower (Str.strip label))
            ["n"; "north"; "s"; "south"; "e"; "east"; "w"; "west";
             "front"; "back"; "left"; "right"] ->
        normalize_direction label = Str.lower (Str.strip label))
  /\ (forall w1 label w2 : string,
        Str.all_space w1 = true -> Str.all_space w2 = true ->
        normalize_direction (w1 +:+ label +:+ w2) = normalize_direction label)
  /\ (forall label : string,
        normalize_direction (Str.lower label) = normalize_direction label)
  /\ (forall (w1 w2 : Wall.t) (a1 a2 : R),
        Wall.siding_area_sq_in w1 = Return a1 ->
        Wall.siding_area_sq_in w2 = Return a2 ->
        WallContainer.breakdown_by_direction
          (WallContainer.add_wall
             (WallContainer.add_wall WallContainer.init w1 "back") w2 "Back ")
        = Return {[ "back" := Rmax 0 a1 + Rmax 0 a2 ]}
        /\ WallContainer.breakdown_by_direction
             (WallContainer.add_wall
                (WallContainer.add_wall WallContainer.init w1 "n") w2 "north")
           = Return {[ "north" := Rmax 0 a1 + Rmax 0 a2 ]}).
Proof.
  split.
  { intros label key canon Hin. cbn [In] in Hin.
    repeat (destruct Hin as [[= <- <-]|Hin];
            [split; [intros Hk; now apply (normalize_direction_lookup _ _ _ Hk)
                    | reflexivity] |]).
    destruct Hin. }
  split.
  { intros label Hnot. unfold normalize_direction.
    now rewrite (_DIR_MAP_None _ Hnot). }
  split.
  { intros w1 label w2 H1 H2. unfold normalize_direction.
    now rewrite strip_pad. }
  split.
  { intros label. unfold normalize_direction.
    now rewrite strip_lower, lower_idem. }
  intros w1 w2 a1 a2 H1 H2.
  split; now apply breakdown_two_walls.
Qed.

(** * The theorems at concrete inputs *)

Lemma equivalent_difference_area_witness :
  let outer := TriSection.Build 10 6 12 in
  let inner := TriSection.Build 6 6 12 in
  TriSection.base_in inner <= TriSection.base_in outer
  /\ exists (net : TriSection.t) (a_outer a_inner a_net : R),
       TriSection.equivalent_difference outer inner = Return net
       /\ TriSection.base_in net
          = sqrt (TriSection.base_in outer ^ 2 - TriSection.base_in inner ^ 2)
       /\ TriSection.pitch_rise net = TriSection.pitch_rise outer
       /\ TriSection.pitch_run net = TriSection.pitch_run outer
       /\ TriSection.area_sq_in outer = Return a_outer
       /\ TriSection.area_sq_in inner = Return a_inner
       /\ TriSection.area_sq_in net = Return a_net
       /\ a_net = a_outer - a_inner.
Proof.
  intros outer inner.
  assert (Hle : TriSection.base_in inner <= TriSection.base_in outer)
    by (cbn; lra).
  split; [exact Hle |].
  apply (equivalent_difference_area outer inner (6 / 12)).
  - apply constructed_Build. lra.
  - apply constructed_Build. lra.
  - apply pitch_Return. cbn. lra.
  - apply pitch_Return. cbn. lra.
  - exact Hle.
Defined.

Lemma equivalent_difference_outcomes_witness :
  (exists net : TriSection.t,
     TriSection.equivalent_difference
       (TriSection.Build 10 6 12) (TriSection.Build 6 6 12) = Return net)
  /\ TriSection.equivalent_difference
       (TriSection.Build 6 6 12) (TriSection.Build 10 6 12)
     = Raise TriSection.invalid_geometry
  /\ TriSection.equivalent_difference
       (TriSection.Build 6 6 12) (TriSection.Build 10 6 10)
     = Raise TriSection.pitch_mismatch.
Proof.
  assert (Hsame : Rabs (6 / 12 - 6 / 12)
                  <= Rmax (1e-9 * Rmax (Rabs (6 / 12)) (Rabs (6 / 12))) 1e-12).
  { replace (6 / 12 - 6 / 12) with 0 by lra. rewrite Rabs_R0.
    eapply Rle_trans; [| apply Rmax_r]. lra. }
  assert (Hdiff : ~ Rabs (6 / 12 - 6 / 10)
                    <= Rmax (1e-9 * Rmax (Rabs (6 / 12)) (Rabs (6 / 10))) 1e-12).
  { rewrite (Rabs_left (6 / 12 - 6 / 10)) by lra.
    rewrite !Rabs_pos_eq by lra.
    rewrite (Rmax_right (6 / 12) (6 / 10)) by lra.
    rewrite Rmax_left by lra. lra. }
  split; [| split].
  - apply (equivalent_difference_outcomes
             (TriSection.Build 10 6 12) (TriSection.Build 6 6 12));
      try (apply constructed_Build; lra); cbn; try lra. exact Hsame.
  - apply (equivalent_difference_outcomes
             (TriSection.Build 6 6 12) (TriSection.Build 10 6 12));
      try (apply constructed_Build; lra); cbn; try lra. exact Hsame.
  - apply (equivalent_difference_outcomes
             (TriSection.Build 6 6 12) (TriSection.Build 10 6 10));
      try (apply constructed_Build; lra); cbn; try lra. exact Hdiff.
Defined.

Lemma pts_to_ft_in_spec_witness :
  (0 < 16)%Z
  /\ exists (ft : Z) (r : R),
       pts_to_ft_in 689 16 = Return (ft, r)
       /\ 0 <= r < 12
       /\ Rabs (IZR ft * 12 + r - 689 * (629 / 799)) <= 1 / (2 * IZR 16)
       /\ exists f0 k : Z,
            IZR f0 <= 689 * (629 / 799) / 12 < IZR f0 + 1
            /\ Rabs ((689 * (629 / 799) - IZR f0 * 12) * IZR 16 - IZR k)
               <= 1 / 2
            /\ ((IZR k / IZR 16 < 12 /\ ft = f0 /\ r = IZR k / IZR 16)
                \/ (12 <= IZR k / IZR 16 /\ ft = (f0 + 1)%Z
                    /\ r = IZR k / IZR 16 - 12)).
Proof. split; [lia | apply (pts_to_ft_in_spec 689 16); lia]. Defined.

Lemma ft_in_to_pts_pts_to_ft_in_witness :
  (0 < 16)%Z
  /\ exists (ft : Z) (r : R),
       pts_to_ft_in 689 16 = Return (ft, r)
       /\ Rabs (ft_in_to_pts ft r - 689) <= 1 / (2 * IZR 16) * (799 / 629)
       /\ ((exists m : Z, 689 * SCALE_IN_PER_PT = IZR m / IZR 16) ->
           ft_in_to_pts ft r = 689).
Proof. split; [lia | apply (ft_in_to_pts_pts_to_ft_in 689 16); lia]. Defined.

Lemma siding_area_sq_in_clamping_witness :
  let w :=
    Wall.add_opening
      (Wall.add_section Wall.init (Rect (RectSection.init 10 10)))
      (Opening.init 20 20) in
  Wall.siding_area_sq_in w
  = Return (fold_right Rplus 0 [10 * 10]
            - fold_right Rplus 0 (map Opening.area_sq_in (Wall.openings w)))
  /\ OrientedWall.siding_area_sq_in (OrientedWall.init w "back")
     = Return (Rmax 0 (0 + 10 * 10 - (0 + 20 * 20)))
  /\ 0 <= Rmax 0 (0 + 10 * 10 - (0 + 20 * 20)).
Proof.
  intros w.
  destruct siding_area_sq_in_clamping as (Hsum & _ & Hclamp & Hpos).
  assert (Hw : OrientedWall.siding_area_sq_in (OrientedWall.init w "back")
               = Return (Rmax 0 (0 + 10 * 10 - (0 + 20 * 20))))
    by (rewrite (Hclamp w "back"); reflexivity).
  split; [| split].
  - apply Hsum. repeat constructor.
  - exact Hw.
  - exact (Hpos w "back" _ Hw).
Defined.

Lemma normalize_direction_spec_witness :
  normalize_direction " N " = "north"
  /\ normalize_direction " Up " = "up"
  /\ normalize_direction ("  " +:+ "Back" +:+ " ") = normalize_direction "Back"
  /\ normalize_direction (Str.lower "BACK") = normalize_direction "BACK"
  /\ WallContainer.breakdown_by_direction
       (WallContainer.add_wall
          (WallContainer.add_wall WallContainer.init
             (Wall.add_section Wall.init (Rect (RectSection.init 10 10)))
             "back")
          (Wall.add_section Wall.init (Rect (RectSection.init 20 20)))
          "Back ")
     = Return {[ "back" := Rmax 0 (0 + 10 * 10 - 0)
                           + Rmax 0 (0 + 20 * 20 - 0) ]}.
Proof.
  destruct normalize_direction_spec as (Hmap & Hpass & Hpad & Hcase & Hwalls).
  split; [| split; [| split; [| split]]].
  - destruct (Hmap " N " "n" "north") as [Hn _];
      [left; reflexivity | apply Hn; reflexivity].
  - apply (Hpass " Up ").
    cbn. intros H. repeat (destruct H as [H|H]; [discriminate H |]). exact H.
  - apply Hpad; reflexivity.
  - apply Hcase.
  - apply Hwalls; reflexivity.
Defined.

Lemma panels_needed_for_area_sq_in_spec_witness :
  panels_needed_for_area_sq_in 10000 0 0.10
  = Raise (ValueError "panel_sq_ft must be > 0")
  /\ (exists n : Z,
        panels_needed_for_area_sq_in 10000 32 0.10 = Return n
        /\ IZR n - 1 < Rmax 0 10000 / 144 * (1 + 0.10) / 32 <= IZR n)
  /\ panels_needed_for_area_sq_in (-5) 32 0.10 = Return 0%Z.
Proof.
  destruct panels_needed_for_area_sq_in_spec as (Hgen & Hneg & _).
  split; [| split].
  - apply (Hgen 10000 0 0.10). lra.
  - apply (Hgen 10000 32 0.10). lra.
  - apply Hneg; lra.
Defined.

Lemma convert_sq_in_to_ft_in_floor_mod_witness :
  (fst (convert_sq_in_to_ft_in (-100)) = -1)%Z
  /\ exists (ft : Z) (rem : R),
       Wall.siding_area_ft_in
         (Wall.add_opening
            (Wall.add_section Wall.init (Rect (RectSection.init 10 10)))
            (Opening.init 20 20))
       = Return (ft, rem)
       /\ (ft < 0)%Z /\ 0 <= rem < 144
       /\ 144 * IZR ft + rem = 0 + 10 * 10 - (0 + 20 * 20).
Proof.
  destruct convert_sq_in_to_ft_in_floor_mod as (Hconv & Hwall).
  split.
  - specialize (Hconv (-100)).
    destruct (convert_sq_in_to_ft_in (-100)) as [ft rem]. cbn [fst].
    apply Hconv. lra.
  - apply Hwall; [reflexivity | reflexivity | lra].
Defined.

(** * Runs of the demonstration values *)

Section Runs.

Lemma round_unique x z : IZR z - 1 / 2 < x < IZR z + 1 / 2 -> Py.round x = z.
Proof.
  intros Hx. pose proof (round_nearest x) as Hr.
  apply Rabs_le_inv in Hr.
  apply Z.le_antisymm.
  - apply Z.lt_succ_r, lt_IZR. rewrite succ_IZR. lra.
  - apply Z.lt_pred_le, lt_IZR. unfold Z.pred. rewrite plus_IZR. lra.
Qed.

Example round_ties_to_even :
  Py.round 2.5 = 2%Z /\ Py.round 3.5 = 4%Z /\ Py.round (-0.5) = 0%Z.
Proof.
  assert (Hnlt : forall x, Py.ltb x x = false)
    by (intros x; apply ltb_false; lra).
  repeat split; unfold Py.round.
  - rewrite (floor_unique 2.5 2) by lra.
    replace (2.5 - 2) with (1 / 2) by lra. now rewrite Hnlt.
  - rewrite (floor_unique 3.5 3) by lra.
    replace (3.5 - 3) with (1 / 2) by lra. now rewrite Hnlt.
  - rewrite (floor_unique (-0.5) (-1)) by lra.
    replace (-0.5 - -1) with (1 / 2) by lra. now rewrite Hnlt.
Qed.

(** [main]'s wall: 144 by 96 less a 35 by 59 opening is 11759 sq in,
    that is 81 sq ft and 95 sq in. *)
Example convert_sq_in_to_ft_in_11759 :
  convert_sq_in_to_ft_in (144 * 96 - 35 * 59) = (81%Z, 95).
Proof.
  unfold convert_sq_in_to_ft_in, Py.mod_, Py.floordiv, SQ_IN_PER_SQ_FT.
  rewrite (floor_unique _ 81) by lra. f_equal. lra.
Qed.

(** [main]'s [pts_to_ft_in(689)]: 45 feet and 2 3/8 inches. *)
Example pts_to_ft_in_689 : pts_to_ft_in 689 16 = Return (45%Z, 2.375).
Proof.
  destruct (pts_to_ft_in_run 689 16) as (Hrun & _); [lia |].
  rewrite (floor_unique _ 45) in Hrun by lra.
  rewrite (round_unique _ 38) in Hrun by lra.
  assert (E : Py.leb 12 (38 / 16) = false) by (apply leb_false; lra).
  rewrite E in Hrun. rewrite Hrun. do 2 f_equal. lra.
Qed.

(** A remainder of 11.99 inches rounds to 12 and is carried. *)
Example pts_to_ft_in_carry :
  pts_to_ft_in (11.99 * (799 / 629)) 16 = Return (1%Z, 0).
Proof.
  destruct (pts_to_ft_in_run (11.99 * (799 / 629)) 16) as (Hrun & _); [lia |].
  rewrite (floor_unique _ 0) in Hrun by lra.
  rewrite (round_unique _ 192) in Hrun by lra.
  assert (E : Py.leb 12 (192 / 16) = true) by (apply leb_true; lra).
  rewrite E in Hrun. rewrite Hrun. do 2 f_equal. lra.
Qed.

(** [round_to_frac = 0] is a division by zero. *)
Example pts_to_ft_in_zero_frac p : pts_to_ft_in p 0 = Raise ZeroDivisionError.
Proof.
  unfold pts_to_ft_in, Py.truediv.
  assert (E : Py.eqb 0 0 = true) by now apply eqb_true.
  now rewrite E.
Qed.

(** The pitch test comes first: with both preconditions broken the
    pitch error is the one raised. *)
Example equivalent_difference_pitch_first :
  TriSection.equivalent_difference
    (TriSection.Build 6 6 12) (TriSection.Build 10 6 10)
  = Raise TriSection.pitch_mismatch.
Proof.
  rewrite equivalent_difference_run by (cbn; lra).
  cbn [TriSection.base_in TriSection.pitch_rise TriSection.pitch_run].
  destruct (Py.isclose (6 / 12) (6 / 10) 1e-9 1e-12) eqn:E; [| reflexivity].
  apply isclose_iff in E; [| lra]. exfalso. revert E.
  rewrite (Rabs_left (6 / 12 - 6 / 10)) by lra.
  rewrite !Rabs_pos_eq by lra.
  rewrite (Rmax_right (6 / 12) (6 / 10)) by lra.
  rewrite Rmax_left by lra. lra.
Qed.

End Runs.


(** * Further properties of the code *)

(** ** Rounding *)

Section RoundFacts.

Lemma round_spec x :
  Rabs (x - IZR (Py.round x)) <= 1 / 2
  /\ (Rabs (x - IZR (Py.round x)) = 1 / 2 -> Z.even (Py.round x) = true).
Proof.
  split; [apply round_nearest |].
  unfold Py.round. pose proof (floor_bounds x) as Hf.
  destruct (Py.ltb (x - IZR (Py.floor x)) (1 / 2)) eqn:E1.
  - apply ltb_true in E1. rewrite Rabs_pos_eq by lra. lra.
  - apply ltb_false in E1.
    destruct (Py.ltb (1 / 2) (x - IZR (Py.floor x))) eqn:E2.
    + apply ltb_true in E2. rewrite plus_IZR, Rabs_left by lra. lra.
    + destruct (Z.even (Py.floor x)) eqn:Ev; intros _; [exact Ev |].
      rewrite Z.even_add, Ev. reflexivity.
Qed.

(** The nearest integer, the even one at a tie, is what [round]
    returns. *)
Lemma round_charac x z :
  Rabs (x - IZR z) <= 1 / 2 ->
  (Rabs (x - IZR z) = 1 / 2 -> Z.even z = true) ->
  Py.round x = z.
Proof.
  intros Hz Hev. destruct (round_spec x) as [Hr Hrev].
  set (r := Py.round x) in *.
  pose proof (Rabs_le_inv _ _ Hz) as Hz'.
  pose proof (Rabs_le_inv _ _ Hr) as Hr'.
  assert (Hle1 : (r <= z + 1)%Z) by (apply le_IZR; rewrite plus_IZR; lra).
  assert (Hle2 : (z <= r + 1)%Z) by (apply le_IZR; rewrite plus_IZR; lra).
  destruct (Z.eq_dec r z) as [|Hne]; [assumption | exfalso].
  assert (Hcase : r = (z + 1)%Z \/ z = (r + 1)%Z) by lia.
  destruct Hcase as [E|E].
  - assert (Hxz : x - IZR z = 1 / 2) by (rewrite E, plus_IZR in Hr'; lra).
    assert (Hxr : x - IZR r = - (1 / 2)) by (rewrite E, plus_IZR; lra).
    assert (Ez : Z.even z = true) by (apply Hev; rewrite Hxz, Rabs_pos_eq; lra).
    assert (Er : Z.even r = true)
      by (apply Hrev; rewrite Hxr, Rabs_Ropp, Rabs_pos_eq; lra).
    rewrite E, Z.even_add, Ez in Er. discriminate.
  - assert (Hxr : x - IZR r = 1 / 2) by (rewrite E, plus_IZR in Hz'; lra).
    assert (Hxz : x - IZR z = - (1 / 2)) by (rewrite E, plus_IZR; lra).
    assert (Er : Z.even r = true) by (apply Hrev; rewrite Hxr, Rabs_pos_eq; lra).
    assert (Ez : Z.even z = true)
      by (apply Hev; rewrite Hxz, Rabs_Ropp, Rabs_pos_eq; lra).
    rewrite E, Z.even_add, Er in Ez. discriminate.
Qed.

Lemma round_opp x : Py.round (- x) = (- Py.round x)%Z.
Proof.
  destruct (round_spec x) as [Hr Hrev].
  assert (E : - x - IZR (- Py.round x) = - (x - IZR (Py.round x)))
    by (rewrite opp_IZR; ring).
  apply round_charac; rewrite E, Rabs_Ropp; [exact Hr |].
  intros H. rewrite Z.even_opp. now apply Hrev.
Qed.

Lemma round_add_even x m :
  Py.round (x + IZR (2 * m)) = (Py.round x + 2 * m)%Z.
Proof.
  destruct (round_spec x) as [Hr Hrev].
  assert (E : x + IZR (2 * m) - IZR (Py.round x + 2 * m)
              = x - IZR (Py.round x))
    by (rewrite (plus_IZR (Py.round x)); ring).
  apply round_charac; rewrite E; [exact Hr |].
  intros H. rewrite Z.even_add_mul_2. now apply Hrev.
Qed.

Lemma round_monotone x y : x <= y -> (Py.round x <= Py.round y)%Z.
Proof.
  intros Hxy.
  destruct (Z.le_gt_cases (Py.round x) (Py.round y)) as [|Hgt];
    [assumption | exfalso].
  pose proof (Rabs_le_inv _ _ (round_nearest x)) as Hx.
  pose proof (Rabs_le_inv _ _ (round_nearest y)) as Hy.
  assert (H1 : IZR (Py.round y) + 1 <= IZR (Py.round x))
    by (rewrite <- plus_IZR; apply IZR_le; lia).
  assert (E : x = y) by lra.
  rewrite E in Hgt. lia.
Qed.

End RoundFacts.

(** ** Unit conversion, continued *)

Section ConversionFacts.

(** For a positive [round_to_frac], the pair returned by [pts_to_ft_in],
    read back as inches, is the inch value rounded as a whole: splitting
    off the feet first loses nothing, because a foot is an even number of
    inches and so keeps the ties where they were. *)
Lemma pts_to_ft_in_total (p : R) (n : Z) :
  (0 < n)%Z ->
  exists (ft : Z) (r : R),
    pts_to_ft_in p n = Return (ft, r)
    /\ 0 <= r < 12
    /\ IZR ft * 12 + r
       = IZR (Py.round (p * SCALE_IN_PER_PT * IZR n)) / IZR n.
Proof.
  intros Hn.
  destruct (pts_to_ft_in_run p n Hn) as (Hrun & Hk & _ & Hf0).
  unfold SCALE_IN_PER_PT.
  set (inches := p * (629 / 799)) in *.
  set (f0 := Py.floor (inches / 12)) in *.
  set (k := Py.round ((inches - IZR f0 * 12) * IZR n)) in *.
  assert (HnR : 0 < IZR n) by (apply IZR_lt; lia).
  assert (Hk0 : 0 <= IZR k) by (apply IZR_le; lia).
  assert (Hk12 : IZR k <= 12 * IZR n)
    by (rewrite <- (mult_IZR 12 n); apply IZR_le; lia).
  assert (Hq0 : 0 <= IZR k / IZR n)
    by (apply Rmult_le_pos; [lra | left; now apply Rinv_0_lt_compat]).
  assert (Hq12 : IZR k / IZR n <= 12).
  { apply (Rmult_le_reg_r (IZR n)); [lra |].
    replace (IZR k / IZR n * IZR n) with (IZR k) by (field; lra). lra. }
  assert (Hwhole : IZR (Py.round (inches * IZR n))
                   = IZR k + IZR f0 * 12 * IZR n).
  { replace (inches * IZR n)
      with ((inches - IZR f0 * 12) * IZR n + IZR (2 * (6 * f0 * n)))
      by (rewrite !mult_IZR; ring).
    rewrite round_add_even. fold k. rewrite plus_IZR, !mult_IZR. ring. }
  rewrite Hwhole.
  destruct (Py.leb 12 (IZR k / IZR n)) eqn:E.
  - apply leb_true in E.
    exists (f0 + 1)%Z, (IZR k / IZR n - 12). split; [exact Hrun |].
    split; [lra |]. rewrite plus_IZR. field. lra.
  - apply leb_false in E.
    exists f0, (IZR k / IZR n). split; [exact Hrun |].
    split; [lra |]. field. lra.
Qed.

Lemma ceil_monotone x y : x <= y -> (Py.ceil x <= Py.ceil y)%Z.
Proof.
  intros Hxy. pose proof (ceil_bounds x) as Hx. pose proof (ceil_bounds y) as Hy.
  apply Z.lt_succ_r, lt_IZR. rewrite succ_IZR. lra.
Qed.

End ConversionFacts.

(** X1: [pts_to_ft_in] raises [ZeroDivisionError] when [round_to_frac]
    is 0, and the sign of [round_to_frac] does not matter; over exact
    arithmetic every other value returns a pair. *)
Theorem pts_to_ft_in_round_to_frac (p : R) (n : Z) :
  (n = 0%Z -> pts_to_ft_in p n = Raise ZeroDivisionError)
  /\ (n <> 0%Z -> exists (ft : Z) (r : R), pts_to_ft_in p n = Return (ft, r))
  /\ pts_to_ft_in p (- n) = pts_to_ft_in p n.
Proof.
  split; [| split].
  - intros ->. unfold pts_to_ft_in, Py.truediv.
    assert (E : Py.eqb 0 0 = true) by now apply eqb_true.
    now rewrite E.
  - intros Hn. unfold pts_to_ft_in, Py.truediv.
    assert (E : Py.eqb (IZR n) 0 = false)
      by (apply eqb_false; intros H; apply eq_IZR in H; contradiction).
    rewrite E. cbn [bind]. destruct (Py.leb _ _); eauto.
  - destruct (Z.eq_dec n 0%Z) as [->|Hn]; [reflexivity |].
    assert (HnR : IZR n <> 0) by (intros H; apply eq_IZR in H; contradiction).
    unfold pts_to_ft_in, Py.truediv. rewrite opp_IZR.
    assert (E : Py.eqb (IZR n) 0 = false) by now apply eqb_false.
    assert (E' : Py.eqb (- IZR n) 0 = false) by (apply eqb_false; lra).
    rewrite E, E'. cbn [bind].
    set (in_rem := p * SCALE_IN_PER_PT
                   - IZR (Py.floordiv (p * SCALE_IN_PER_PT) 12) * 12).
    replace (in_rem / (1 / - IZR n)) with (- (in_rem / (1 / IZR n)))
      by (field; lra).
    rewrite round_opp, opp_IZR.
    replace (- IZR (Py.round (in_rem / (1 / IZR n))) * (1 / - IZR n))
      with (IZR (Py.round (in_rem / (1 / IZR n))) * (1 / IZR n))
      by (field; lra).
    reflexivity.
Qed.

(** X2: over exact arithmetic, for a positive [round_to_frac], the feet and inches returned by
    [pts_to_ft_in] add up to [K / round_to_frac], where [K] is the integer
    nearest to the whole inch value [pts * 629/799] counted in steps (the
    even one at a tie), with the inches in the half-open interval from 0
    to 12: splitting off the feet before rounding changes nothing. *)
Theorem pts_to_ft_in_rounds_whole (p : R) (n : Z) :
  (0 < n)%Z ->
  exists (ft : Z) (r : R) (K : Z),
    pts_to_ft_in p n = Return (ft, r)
    /\ 0 <= r < 12
    /\ Rabs (p * SCALE_IN_PER_PT * IZR n - IZR K) <= 1 / 2
    /\ (Rabs (p * SCALE_IN_PER_PT * IZR n - IZR K) = 1 / 2 ->
        Z.even K = true)
    /\ IZR ft * 12 + r = IZR K / IZR n.
Proof.
  intros Hn. destruct (pts_to_ft_in_total p n Hn) as (ft & r & Hrun & Hr & Ht).
  exists ft, r, (Py.round (p * SCALE_IN_PER_PT * IZR n)).
  destruct (round_spec (p * SCALE_IN_PER_PT * IZR n)) as [Hnear Heven].
  repeat split; try assumption; apply Hr.
Qed.

(** X3: over exact arithmetic [pts_to_ft_in] is monotone: for a positive [round_to_frac], more
    points never give fewer feet, nor a shorter length in feet and
    inches. *)
Theorem pts_to_ft_in_monotone (p1 p2 : R) (n ft1 ft2 : Z) (r1 r2 : R) :
  (0 < n)%Z -> p1 <= p2 ->
  pts_to_ft_in p1 n = Return (ft1, r1) ->
  pts_to_ft_in p2 n = Return (ft2, r2) ->
  (ft1 <= ft2)%Z /\ IZR ft1 * 12 + r1 <= IZR ft2 * 12 + r2.
Proof.
  intros Hn Hp H1 H2.
  destruct (pts_to_ft_in_total p1 n Hn) as (f1 & s1 & E1 & Hs1 & T1).
  destruct (pts_to_ft_in_total p2 n Hn) as (f2 & s2 & E2 & Hs2 & T2).
  rewrite H1 in E1. rewrite H2 in E2.
  injection E1 as <- <-. injection E2 as <- <-.
  assert (HnR : 0 < IZR n) by (apply IZR_lt; lia).
  assert (Htot : IZR ft1 * 12 + r1 <= IZR ft2 * 12 + r2).
  { rewrite T1, T2. apply Rmult_le_compat_r;
      [left; now apply Rinv_0_lt_compat |].
    apply IZR_le, round_monotone. unfold SCALE_IN_PER_PT. nra. }
  split; [| exact Htot].
  apply Z.lt_succ_r, lt_IZR. rewrite succ_IZR. lra.
Qed.

(** X4: a length of whole feet and a whole number [k] of steps below 12
    inches survives the trip through points:
    [pts_to_ft_in(ft_in_to_pts(f, k/n), n)] is [(f, k/n)]. *)
Theorem pts_to_ft_in_ft_in_to_pts (f k n : Z) :
  (0 < n)%Z -> (0 <= k < 12 * n)%Z ->
  pts_to_ft_in (ft_in_to_pts f (IZR k / IZR n)) n
  = Return (f, IZR k / IZR n).
Proof.
  intros Hn Hk.
  assert (HnR : 0 < IZR n) by (apply IZR_lt; lia).
  assert (Hk0 : 0 <= IZR k) by (apply IZR_le; lia).
  assert (Hk12 : IZR k < 12 * IZR n)
    by (rewrite <- (mult_IZR 12 n); apply IZR_lt; lia).
  assert (Hq0 : 0 <= IZR k / IZR n)
    by (apply Rmult_le_pos; [lra | left; now apply Rinv_0_lt_compat]).
  assert (Hq12 : IZR k / IZR n < 12).
  { apply (Rmult_lt_reg_r (IZR n)); [lra |].
    replace (IZR k / IZR n * IZR n) with (IZR k) by (field; lra). lra. }
  destruct (pts_to_ft_in_run (ft_in_to_pts f (IZR k / IZR n)) n Hn)
    as (Hrun & _).
  assert (Hin : ft_in_to_pts f (IZR k / IZR n) * (629 / 799)
                = IZR f * 12 + IZR k / IZR n).
  { unfold ft_in_to_pts, SCALE_PT_PER_IN, SCALE_IN_PER_PT. field. lra. }
  rewrite Hin in Hrun.
  rewrite (floor_unique _ f) in Hrun by lra.
  replace ((IZR f * 12 + IZR k / IZR n - IZR f * 12) * IZR n) with (IZR k)
    in Hrun by (field; lra).
  rewrite round_IZR in Hrun.
  assert (E : Py.leb 12 (IZR k / IZR n) = false) by (apply leb_false; lra).
  now rewrite E in Hrun.
Qed.

(** X5: over exact arithmetic [convert_sq_in_to_ft_in] undoes the recombination of whole square
    feet with a remainder below 144 square inches, also for negative
    feet. *)
Theorem convert_sq_in_to_ft_in_recombine (f : Z) (r : R) :
  0 <= r < 144 ->
  convert_sq_in_to_ft_in (144 * IZR f + r) = (f, r).
Proof.
  intros Hr.
  unfold convert_sq_in_to_ft_in, Py.mod_, Py.floordiv, SQ_IN_PER_SQ_FT.
  rewrite (floor_unique _ f) by lra. f_equal. ring.
Qed.

(** X6: with a positive panel coverage and a waste factor of at least -1,
    [panels_needed_for_area_sq_in] never returns a negative count and
    never returns fewer panels for a larger area. *)
Theorem panels_needed_for_area_sq_in_monotone
    (a1 a2 panel waste : R) (n1 n2 : Z) :
  0 < panel -> -1 <= waste -> a1 <= a2 ->
  panels_needed_for_area_sq_in a1 panel waste = Return n1 ->
  panels_needed_for_area_sq_in a2 panel waste = Return n2 ->
  (0 <= n1 <= n2)%Z.
Proof.
  intros Hp Hw Ha. unfold panels_needed_for_area_sq_in.
  assert (E : Py.leb panel 0 = false) by now apply leb_false.
  rewrite E. intros [= <-] [= <-].
  rewrite !max_Rmax. unfold SQ_IN_PER_SQ_FT.
  assert (Hinv : 0 < / panel) by now apply Rinv_0_lt_compat.
  assert (Hm1 : 0 <= Rmax 0 a1) by apply Rmax_l.
  assert (Hm : Rmax 0 a1 <= Rmax 0 a2)
    by (apply Rle_max_compat_l; exact Ha).
  assert (Hc : 0 <= (1 + waste) * / panel / 144).
  { apply Rmult_le_pos; [apply Rmult_le_pos; lra | lra]. }
  split.
  - assert (H0 : Py.ceil 0 = 0%Z) by (apply ceil_unique; lra).
    rewrite <- H0 at 1. apply ceil_monotone.
    replace (Rmax 0 a1 / 144 * (1 + waste) / panel)
      with (Rmax 0 a1 * ((1 + waste) * / panel / 144)) by (field; lra).
    now apply Rmult_le_pos.
  - apply ceil_monotone.
    replace (Rmax 0 a1 / 144 * (1 + waste) / panel)
      with (Rmax 0 a1 * ((1 + waste) * / panel / 144)) by (field; lra).
    replace (Rmax 0 a2 / 144 * (1 + waste) / panel)
      with (Rmax 0 a2 * ((1 + waste) * / panel / 144)) by (field; lra).
    now apply Rmult_le_compat_r.
Qed.

(** ** Triangle sections, continued *)

Section TriangleFacts.
Import TriSection.

Lemma area_sq_in_Raise self :
  pitch_run self = 0 -> area_sq_in self = Raise ZeroDivisionError.
Proof. intros Hrun. unfold area_sq_in. now rewrite (pitch_Raise self Hrun). Qed.


Lemma sqrt_pow2_nonneg b : 0 <= b -> sqrt (b ^ 2 - 0 ^ 2) = b.
Proof.
  intros Hb. replace (b ^ 2 - 0 ^ 2) with (b * b) by ring.
  now apply sqrt_square.
Qed.

End TriangleFacts.

(** X7: over exact arithmetic the area of a triangle section grows with the square of its base:
    at the same rise and run, [k] times the base has [k^2] times the area.
    With a zero [pitch_run] the area is a [ZeroDivisionError]. *)
Theorem TriSection_area_sq_in_scaling (t : TriSection.t) :
  (TriSection.pitch_run t = 0 ->
   TriSection.area_sq_in t = Raise ZeroDivisionError)
  /\ (forall k a : R,
        TriSection.area_sq_in t = Return a ->
        TriSection.area_sq_in
          (TriSection.Build (k * TriSection.base_in t)
             (TriSection.pitch_rise t) (TriSection.pitch_run t))
        = Return (k ^ 2 * a)).
Proof.
  split; [apply area_sq_in_Raise |].
  intros k a Ha.
  destruct (Req_dec_T (TriSection.pitch_run t) 0) as [Hz|Hnz].
  - rewrite (area_sq_in_Raise t Hz) in Ha. discriminate.
  - rewrite (area_sq_in_Return t Hnz) in Ha. injection Ha as <-.
    rewrite area_sq_in_Return by exact Hnz.
    cbn [TriSection.base_in TriSection.pitch_rise TriSection.pitch_run].
    f_equal. assert (Hhalf : 0.5 = 1 / 2) by lra. rewrite Hhalf.
    field. exact Hnz.
Qed.

(** X8: over exact arithmetic, on constructed triangles
    [equivalent_difference] ends in one of
    four ways only: [ZeroDivisionError], the pitch error, the base error,
    or a triangle.  The square root's domain error and the constructor's
    error are never raised, and a returned triangle is itself a
    constructed one (base at least 0) with
    [net.base^2 + inner.base^2 = outer.base^2]. *)
Theorem equivalent_difference_closed (outer inner : TriSection.t) :
  TriSection.constructed outer ->
  TriSection.constructed inner ->
  TriSection.equivalent_difference outer inner = Raise ZeroDivisionError
  \/ TriSection.equivalent_difference outer inner
     = Raise TriSection.pitch_mismatch
  \/ TriSection.equivalent_difference outer inner
     = Raise TriSection.invalid_geometry
  \/ exists net : TriSection.t,
       TriSection.equivalent_difference outer inner = Return net
       /\ TriSection.constructed net
       /\ TriSection.base_in net ^ 2 + TriSection.base_in inner ^ 2
          = TriSection.base_in outer ^ 2.
Proof.
  intros _ Hci. pose proof (constructed_base_nonneg inner Hci) as Hbi.
  destruct (Req_dec_T (TriSection.pitch_run outer) 0) as [Ho|Ho].
  { left. unfold TriSection.equivalent_difference.
    now rewrite (pitch_Raise outer Ho). }
  destruct (Req_dec_T (TriSection.pitch_run inner) 0) as [Hi|Hi].
  { left. unfold TriSection.equivalent_difference.
    now rewrite (pitch_Return outer Ho), (pitch_Raise inner Hi). }
  right. rewrite (equivalent_difference_run outer inner Ho Hi).
  destruct (Py.isclose _ _ _ _); cbn [negb]; [| now left].
  right.
  destruct (Py.ltb (TriSection.base_in outer) (TriSection.base_in inner))
    eqn:Elt; [now left |].
  right. apply ltb_false in Elt.
  rewrite sqrt_then_init by lra.
  eexists. split; [reflexivity |]. split.
  - apply constructed_Build, sqrt_pos.
  - cbn [TriSection.base_in].
    set (d := TriSection.base_in outer ^ 2 - TriSection.base_in inner ^ 2).
    assert (Hd : 0 <= d) by (unfold d; nra).
    replace (sqrt d ^ 2) with (sqrt d * sqrt d) by ring.
    rewrite (sqrt_sqrt d Hd). unfold d. ring.
Qed.


(** X10: over exact arithmetic, subtracting a zero-base triangle of the same pitch gives the
    outer triangle back, and subtracting a triangle from itself gives the
    zero-base triangle, whose area is 0. *)
Theorem equivalent_difference_zero_and_self (outer : TriSection.t) :
  TriSection.constructed outer ->
  TriSection.pitch_run outer <> 0 ->
  TriSection.equivalent_difference outer
    (TriSection.Build 0 (TriSection.pitch_rise outer)
       (TriSection.pitch_run outer))
  = Return outer
  /\ TriSection.equivalent_difference outer outer
     = Return (TriSection.Build 0 (TriSection.pitch_rise outer)
                 (TriSection.pitch_run outer))
  /\ TriSection.area_sq_in
       (TriSection.Build 0 (TriSection.pitch_rise outer)
          (TriSection.pitch_run outer))
     = Return 0.
Proof.
  intros Hc Hrun. pose proof (constructed_base_nonneg outer Hc) as Hb.
  split; [| split].
  - rewrite equivalent_difference_Return;
      cbn [TriSection.base_in TriSection.pitch_rise TriSection.pitch_run];
      try assumption; [| apply isclose_refl | lra].
    rewrite (sqrt_pow2_nonneg _ Hb). now destruct outer.
  - rewrite equivalent_difference_Return;
      try assumption; [| apply isclose_refl | lra].
    replace (TriSection.base_in outer ^ 2 - TriSection.base_in outer ^ 2)
      with 0 by ring.
    now rewrite sqrt_0.
  - rewrite area_sq_in_Return by exact Hrun.
    cbn [TriSection.base_in TriSection.pitch_rise TriSection.pitch_run].
    f_equal. assert (Hhalf : 0.5 = 1 / 2) by lra. rewrite Hhalf.
    field. exact Hrun.
Qed.

(** X11: over exact arithmetic two inner triangles can be subtracted in either order: when both
    are as steep as [outer] (within the tolerance) and their squared bases
    together do not exceed [outer]'s, [(outer - a) - b] and
    [(outer - b) - a] are the same triangle, on the base
    [sqrt(outer.base^2 - a.base^2 - b.base^2)]. *)
Theorem equivalent_difference_twice (outer a b : TriSection.t) :
  TriSection.constructed a -> TriSection.constructed b ->
  TriSection.pitch_run outer <> 0 ->
  TriSection.pitch_run a <> 0 -> TriSection.pitch_run b <> 0 ->
  Py.isclose (TriSection.pitch_rise outer / TriSection.pitch_run outer)
    (TriSection.pitch_rise a / TriSection.pitch_run a) 1e-9 1e-12 = true ->
  Py.isclose (TriSection.pitch_rise outer / TriSection.pitch_run outer)
    (TriSection.pitch_rise b / TriSection.pitch_run b) 1e-9 1e-12 = true ->
  0 <= TriSection.base_in outer ->
  TriSection.base_in a ^ 2 + TriSection.base_in b ^ 2
  <= TriSection.base_in outer ^ 2 ->
  let net :=
    TriSection.Build
      (sqrt (TriSection.base_in outer ^ 2 - TriSection.base_in a ^ 2
             - TriSection.base_in b ^ 2))
      (TriSection.pitch_rise outer) (TriSection.pitch_run outer) in
  (let* d := TriSection.sub outer a in TriSection.sub d b) = Return net
  /\ (let* d := TriSection.sub outer b in TriSection.sub d a) = Return net.
Proof.
  intros Hca Hcb Ho Ha Hb Hia Hib Hbo Hsq net.
  pose proof (constructed_base_nonneg a Hca) as Hba.
  pose proof (constructed_base_nonneg b Hcb) as Hbb.
  assert (Hstep : forall x y : TriSection.t,
            TriSection.pitch_run x <> 0 -> TriSection.pitch_run y <> 0 ->
            0 <= TriSection.base_in x -> 0 <= TriSection.base_in y ->
            Py.isclose (TriSection.pitch_rise outer / TriSection.pitch_run outer)
              (TriSection.pitch_rise x / TriSection.pitch_run x) 1e-9 1e-12
            = true ->
            Py.isclose (TriSection.pitch_rise outer / TriSection.pitch_run outer)
              (TriSection.pitch_rise y / TriSection.pitch_run y) 1e-9 1e-12
            = true ->
            TriSection.base_in x ^ 2 + TriSection.base_in y ^ 2
            <= TriSection.base_in outer ^ 2 ->
            (let* d := TriSection.sub outer x in TriSection.sub d y)
            = Return
                (TriSection.Build
                   (sqrt (TriSection.base_in outer ^ 2
                          - TriSection.base_in x ^ 2
                          - TriSection.base_in y ^ 2))
                   (TriSection.pitch_rise outer) (TriSection.pitch_run outer))).
  { intros x y Hx Hy Hbx Hby Hix Hiy Hxy. unfold TriSection.sub.
    assert (Hdx : 0 <= TriSection.base_in outer ^ 2 - TriSection.base_in x ^ 2)
      by nra.
    rewrite (equivalent_difference_Return outer x) by (try assumption; nra).
    cbn [bind].
    assert (Hsq2 : sqrt (TriSection.base_in outer ^ 2
                         - TriSection.base_in x ^ 2) ^ 2
                   = TriSection.base_in outer ^ 2 - TriSection.base_in x ^ 2).
    { replace (sqrt (TriSection.base_in outer ^ 2
                     - TriSection.base_in x ^ 2) ^ 2)
        with (sqrt (TriSection.base_in outer ^ 2 - TriSection.base_in x ^ 2)
              * sqrt (TriSection.base_in outer ^ 2 - TriSection.base_in x ^ 2))
        by ring.
      now apply sqrt_sqrt. }
    rewrite equivalent_difference_Return;
      cbn [TriSection.base_in TriSection.pitch_rise TriSection.pitch_run];
      try assumption.
    - now rewrite Hsq2.
    - split; [exact Hby |].
      rewrite <- (sqrt_square (TriSection.base_in y)) by exact Hby.
      apply sqrt_le_1_alt. nra. }
  split.
  - unfold net. now apply Hstep.
  - unfold net.
    replace (TriSection.base_in outer ^ 2 - TriSection.base_in a ^ 2
             - TriSection.base_in b ^ 2)
      with (TriSection.base_in outer ^ 2 - TriSection.base_in b ^ 2
            - TriSection.base_in a ^ 2) by ring.
    apply Hstep; try assumption. lra.
Qed.

(** ** Walls, continued *)

Section WallCompose.

Lemma sum_gen_app {A : Type} (f : A -> result R) xs ys acc :
  sum_gen f (xs ++ ys) acc
  = let* s := sum_gen f xs acc in sum_gen f ys s.
Proof.
  revert acc. induction xs as [|x xs IH]; intros acc; cbn; [reflexivity |].
  destruct (f x) as [e|a]; cbn; [reflexivity | apply IH].
Qed.

(** A section's area fails in one way only. *)
Lemma Section_area_sq_in_Raise s e :
  Section_area_sq_in s = Raise e -> e = ZeroDivisionError.
Proof.
  destruct s as [r|t]; cbn; [discriminate |].
  unfold TriSection.area_sq_in, TriSection.pitch, Py.truediv.
  destruct (Py.eqb _ _); cbn; [now intros [= <-] | discriminate].
Qed.

Lemma sum_gen_Raise {A : Type} (f : A -> result R) xs acc e :
  (forall x e', f x = Raise e' -> e' = ZeroDivisionError) ->
  sum_gen f xs acc = Raise e -> e = ZeroDivisionError.
Proof.
  intros Hf. revert acc. induction xs as [|x xs IH]; intros acc; cbn;
    [discriminate |].
  destruct (f x) as [e'|a] eqn:E; cbn.
  - intros [= <-]. now apply (Hf x).
  - apply IH.
Qed.

Lemma sum_gen_acc_ext {A : Type} (f : A -> result R) xs acc acc' :
  acc = acc' -> sum_gen f xs acc = sum_gen f xs acc'.
Proof. now intros ->. Qed.

(** With a single way to fail, the order of the items is immaterial. *)
Lemma sum_gen_Permutation {A : Type} (f : A -> result R) xs ys :
  (forall x e, f x = Raise e -> e = ZeroDivisionError) ->
  Permutation xs ys ->
  forall acc, sum_gen f xs acc = sum_gen f ys acc.
Proof.
  intros Hf. induction 1 as [|x xs ys _ IH|x y l|xs ys zs _ IH1 _ IH2];
    intros acc; cbn.
  - reflexivity.
  - destruct (f x); cbn; [reflexivity | apply IH].
  - destruct (f y) as [ey|b] eqn:Ey, (f x) as [ex|a] eqn:Ex; cbn;
      try rewrite Ey; try rewrite Ex; cbn.
    + now rewrite (Hf _ _ Ex), (Hf _ _ Ey).
    + reflexivity.
    + reflexivity.
    + apply sum_gen_acc_ext. lra.
  - now rewrite IH1.
Qed.

Lemma siding_area_sq_in_inv w v :
  Wall.siding_area_sq_in w = Return v ->
  exists s o : R,
    Wall.section_area_sq_in w = Return s
    /\ Wall.opening_area_sq_in w = Return o
    /\ v = s - o.
Proof.
  unfold Wall.siding_area_sq_in.
  destruct (Wall.section_area_sq_in w) as [e|s]; cbn; [discriminate |].
  destruct (Wall.opening_area_sq_in w) as [e|o]; cbn; [discriminate |].
  intros [= <-]. now exists s, o.
Qed.

Lemma siding_area_sq_in_Raise w e :
  Wall.siding_area_sq_in w = Raise e -> e = ZeroDivisionError.
Proof.
  unfold Wall.siding_area_sq_in, Wall.section_area_sq_in.
  destruct (sum_gen Section_area_sq_in (Wall.sections w) 0) as [e'|s] eqn:E;
    cbn.
  - intros [= <-].
    apply (sum_gen_Raise _ _ _ _ Section_area_sq_in_Raise E).
  - rewrite opening_area_sq_in_sum. discriminate.
Qed.

End WallCompose.

(** X12: over exact arithmetic: the empty wall has siding area 0;
    [add_section] adds the new
    section's area to the wall's siding area and [add_opening] takes the
    new opening's area off it. *)
Theorem Wall_add_section_add_opening :
  Wall.siding_area_sq_in Wall.init = Return 0
  /\ (forall (w : Wall.t) (s : Section) (v a : R),
        Wall.siding_area_sq_in w = Return v ->
        Section_area_sq_in s = Return a ->
        Wall.siding_area_sq_in (Wall.add_section w s) = Return (v + a))
  /\ (forall (w : Wall.t) (o : Opening.t) (v : R),
        Wall.siding_area_sq_in w = Return v ->
        Wall.siding_area_sq_in (Wall.add_opening w o)
        = Return (v - Opening.area_sq_in o)).
Proof.
  split; [| split].
  - unfold Wall.siding_area_sq_in. cbn. f_equal. lra.
  - intros w s v a Hv Ha.
    destruct (siding_area_sq_in_inv w v Hv) as (sa & oa & Hs & Ho & ->).
    unfold Wall.siding_area_sq_in, Wall.section_area_sq_in,
      Wall.opening_area_sq_in in *.
    cbn [Wall.add_section Wall.sections Wall.openings].
    rewrite sum_gen_app, Hs. cbn [bind sum_gen]. rewrite Ha. cbn [bind].
    rewrite Ho. cbn [bind]. f_equal. lra.
  - intros w o v Hv.
    destruct (siding_area_sq_in_inv w v Hv) as (sa & oa & Hs & Ho & ->).
    unfold Wall.siding_area_sq_in, Wall.section_area_sq_in,
      Wall.opening_area_sq_in in *.
    cbn [Wall.add_opening Wall.sections Wall.openings].
    rewrite sum_gen_app, Hs, Ho. cbn [bind sum_gen]. f_equal. lra.
Qed.

(** X13: over exact arithmetic the order in which sections and openings
    were added does not matter: two walls holding the same sections and the same openings, in
    any order, have the same siding area, and fail alike. *)
Theorem Wall_siding_area_sq_in_order (w w' : Wall.t) :
  Permutation (Wall.sections w) (Wall.sections w') ->
  Permutation (Wall.openings w) (Wall.openings w') ->
  Wall.siding_area_sq_in w = Wall.siding_area_sq_in w'.
Proof.
  intros Hs Ho.
  unfold Wall.siding_area_sq_in, Wall.section_area_sq_in,
    Wall.opening_area_sq_in.
  rewrite (sum_gen_Permutation _ _ _ Section_area_sq_in_Raise Hs 0).
  assert (Hop : forall (o : Opening.t) (e : exn),
            Return (Opening.area_sq_in o) = Raise e -> e = ZeroDivisionError)
    by discriminate.
  now rewrite (sum_gen_Permutation _ _ _ Hop Ho 0).
Qed.

(** X14: a wall's siding area fails exactly when one of its sections is a
    triangle with a zero [pitch_run], and then with [ZeroDivisionError];
    no other exception ever leaves [siding_area_sq_in]. *)
Theorem Wall_siding_area_sq_in_failure (w : Wall.t) :
  let zero_run (s : Section) :=
    match s with
    | Tri t => TriSection.pitch_run t = 0
    | Rect _ => False
    end in
  (Exists zero_run (Wall.sections w) ->
   Wall.siding_area_sq_in w = Raise ZeroDivisionError)
  /\ (~ Exists zero_run (Wall.sections w) ->
      exists v : R, Wall.siding_area_sq_in w = Return v)
  /\ (forall e : exn,
        Wall.siding_area_sq_in w = Raise e -> e = ZeroDivisionError).
Proof.
  intros zero_run.
  assert (Hsec : forall xs acc,
            (Exists zero_run xs ->
             sum_gen Section_area_sq_in xs acc = Raise ZeroDivisionError)
            /\ (~ Exists zero_run xs ->
                exists v, sum_gen Section_area_sq_in xs acc = Return v)).
  { induction xs as [|s xs IH]; intros acc; cbn [sum_gen].
    - split; [intros H; inversion H | eauto].
    - destruct s as [r|t]; cbn [Section_area_sq_in bind].
      + destruct (IH (acc + RectSection.area_sq_in r)) as [IH1 IH2]. split.
        * intros H. apply IH1. inversion H as [? ? H0|]; [destruct H0 | assumption].
        * intros H. apply IH2. intros H'. apply H. now apply Exists_cons_tl.
      + destruct (Req_dec_T (TriSection.pitch_run t) 0) as [Hz|Hnz].
        * rewrite (area_sq_in_Raise t Hz). cbn [bind]. split; [reflexivity |].
          intros H. exfalso. apply H. now apply Exists_cons_hd.
        * rewrite (area_sq_in_Return t Hnz). cbn [bind].
          destruct (IH (acc
                        + 0.5 * TriSection.base_in t
                          * (TriSection.base_in t / 2
                             * (TriSection.pitch_rise t
                                / TriSection.pitch_run t))))
            as [IH1 IH2].
          split.
          -- intros H. apply IH1.
             inversion H as [? ? H0|]; [contradiction | assumption].
          -- intros H. apply IH2. intros H'. apply H.
             now apply Exists_cons_tl. }
  unfold Wall.siding_area_sq_in at 1 2, Wall.section_area_sq_in.
  destruct (Hsec (Wall.sections w) 0) as [H1 H2].
  split; [| split].
  - intros H. now rewrite (H1 H).
  - intros H. destruct (H2 H) as [v Hv]. rewrite Hv, opening_area_sq_in_sum.
    cbn [bind]. eauto.
  - apply siding_area_sq_in_Raise.
Qed.

(** X15: [Wall.panels_needed] works the wall's area out before the panel
    coverage is looked at: a wall whose area fails makes it fail the same
    way whatever the coverage; otherwise a coverage of 0 or less is the
    [ValueError], and with a positive coverage a wall whose openings
    outweigh its sections needs 0 panels. *)
Theorem Wall_panels_needed_spec (w : Wall.t) (panel waste : R) :
  (forall e : exn,
     Wall.siding_area_sq_in w = Raise e ->
     Wall.panels_needed w panel waste = Raise e)
  /\ (forall v : R,
        Wall.siding_area_sq_in w = Return v -> panel <= 0 ->
        Wall.panels_needed w panel waste
        = Raise (ValueError "panel_sq_ft must be > 0"))
  /\ (forall v : R,
        Wall.siding_area_sq_in w = Return v -> 0 < panel -> v <= 0 ->
        Wall.panels_needed w panel waste = Return 0%Z).
Proof.
  unfold Wall.panels_needed. split; [| split].
  - intros e ->. reflexivity.
  - intros v -> Hp. cbn [bind]. unfold panels_needed_for_area_sq_in.
    apply leb_true in Hp. now rewrite Hp.
  - intros v -> Hp Hv. cbn [bind]. unfold panels_needed_for_area_sq_in.
    apply leb_false in Hp. rewrite Hp. f_equal. apply ceil_unique.
    rewrite max_Rmax, Rmax_left by lra. unfold SQ_IN_PER_SQ_FT.
    replace (0 / 144 * (1 + waste) / panel) with 0;
      [lra | apply leb_false in Hp; field; lra].
Qed.

(** ** Direction labels, continued *)

Section StripFacts.
Import Str.

Lemma lstrip_head s c r : lstrip s = String c r -> isspace c = false.
Proof.
  induction s as [|a s IH]; cbn [lstrip]; [discriminate |].
  destruct (isspace a) eqn:E; [exact IH |].
  now intros [= <- <-].
Qed.

Lemma rstrip_cons_nonspace c r :
  isspace c = false -> rstrip (String c r) = String c (rstrip r).
Proof.
  intros Hc. cbn [rstrip]. rewrite Hc. now destruct (rstrip r).
Qed.

Lemma rstrip_idem s : rstrip (rstrip s) = rstrip s.
Proof.
  induction s as [|c s IH]; [reflexivity |].
  cbn [rstrip]. destruct (rstrip s) as [|a r] eqn:E.
  - destruct (isspace c) eqn:Hc; [reflexivity |].
    cbn [rstrip]. now rewrite Hc.
  - cbn [rstrip]. cbn [rstrip] in IH. now rewrite IH.
Qed.

Lemma lstrip_strip s : lstrip (strip s) = strip s.
Proof.
  unfold strip. destruct (lstrip s) as [|c r] eqn:E; [reflexivity |].
  pose proof (lstrip_head s c r E) as Hc.
  rewrite (rstrip_cons_nonspace c r Hc). cbn [lstrip]. now rewrite Hc.
Qed.

Lemma strip_idem s : strip (strip s) = strip s.
Proof.
  unfold strip at 1. rewrite lstrip_strip. unfold strip. apply rstrip_idem.
Qed.

Lemma strip_all_space s : all_space s = true -> strip s = EmptyString.
Proof. intros H. unfold strip. now rewrite (lstrip_all_space s H). Qed.

(** The cleaned key is stable under cleaning. *)
Lemma lower_strip_idem s : lower (strip (lower (strip s))) = lower (strip s).
Proof. now rewrite strip_lower, lower_idem, strip_idem. Qed.

(** Every value of the table is one of its keys, mapped to itself, and
    is already clean. *)
Lemma _DIR_MAP_values key canon :
  _DIR_MAP !! key = Some canon ->
  _DIR_MAP !! canon = Some canon
  /\ strip canon = canon /\ lower canon = canon.
Proof.
  intros H. unfold _DIR_MAP in H. apply elem_of_list_to_map_2 in H.
  apply list_elem_of_In in H. cbn [In] in H.
  repeat (destruct H as [[= <- <-]|H]; [repeat split; reflexivity |]).
  destruct H.
Qed.

End StripFacts.

(** X16: [normalize_direction] is idempotent, and what it returns is
    already trimmed and lower-cased; a label of whitespace only (or the
    empty one) becomes the empty key; so adding a wall under a label or
    under its normalized form builds the same container. *)
Theorem normalize_direction_idempotent :
  (forall label : string,
     normalize_direction (normalize_direction label)
     = normalize_direction label
     /\ Str.strip (normalize_direction label) = normalize_direction label
     /\ Str.lower (normalize_direction label) = normalize_direction label)
  /\ (forall label : string,
        Str.all_space label = true -> normalize_direction label = "")
  /\ (forall (c : WallContainer.t) (w : Wall.t) (d : string),
        WallContainer.add_wall c w (normalize_direction d)
        = WallContainer.add_wall c w d).
Proof.
  assert (Hidem : forall label : string,
     normalize_direction (normalize_direction label)
     = normalize_direction label
     /\ Str.strip (normalize_direction label) = normalize_direction label
     /\ Str.lower (normalize_direction label) = normalize_direction label).
  { intros label.
    assert (Hn : normalize_direction label
                 = default (Str.lower (Str.strip label))
                     (_DIR_MAP !! Str.lower (Str.strip label)))
      by reflexivity.
    destruct (_DIR_MAP !! Str.lower (Str.strip label)) as [canon|] eqn:E;
      cbn [default from_option] in Hn; unfold Datatypes.id in Hn;
      rewrite Hn.
    - destruct (_DIR_MAP_values _ _ E) as (Hc & Hs & Hl).
      repeat split; try assumption.
      unfold normalize_direction. now rewrite Hs, Hl, Hc.
    - repeat split.
      + unfold normalize_direction. now rewrite lower_strip_idem, E.
      + now rewrite <- strip_lower, strip_idem.
      + apply lower_idem. }
  split; [exact Hidem |]. split.
  - intros label H. unfold normalize_direction.
    now rewrite (strip_all_space label H).
  - intros c w d. unfold WallContainer.add_wall, OrientedWall.init.
    now rewrite (proj1 (Hidem d)).
Qed.

(** ** The container, continued *)

Section ContainerCompose.

Lemma total_loop_app dirs xs ys t :
  WallContainer.total_loop dirs (xs ++ ys) t
  = let* t' := WallContainer.total_loop dirs xs t in
    WallContainer.total_loop dirs ys t'.
Proof.
  revert t. induction xs as [|ow xs IH]; intros t; [reflexivity |].
  cbn [app WallContainer.total_loop].
  destruct (match dirs with
            | Some ds => bool_decide (OrientedWall.direction ow ∈ ds)
            | None => true
            end); [| apply IH].
  destruct (OrientedWall.siding_area_sq_in ow) as [e|a]; cbn [bind];
    [reflexivity | apply IH].
Qed.

Lemma breakdown_loop_app xs ys (out : gmap string R) :
  WallContainer.breakdown_loop (xs ++ ys) out
  = let* out' := WallContainer.breakdown_loop xs out in
    WallContainer.breakdown_loop ys out'.
Proof.
  revert out. induction xs as [|ow xs IH]; intros out; [reflexivity |].
  cbn [app WallContainer.breakdown_loop].
  destruct (OrientedWall.siding_area_sq_in ow) as [e|a]; cbn [bind];
    [reflexivity | apply IH].
Qed.

(** The running total never goes down. *)
Lemma total_loop_ge dirs ows t v :
  WallContainer.total_loop dirs ows t = Return v -> t <= v.
Proof.
  revert t. induction ows as [|ow ows IH]; intros t;
    cbn [WallContainer.total_loop].
  - intros [= <-]. lra.
  - destruct (match dirs with
              | Some ds => bool_decide (OrientedWall.direction ow ∈ ds)
              | None => true
              end); [| apply IH].
    destruct (OrientedWall.siding_area_sq_in ow) as [e|a] eqn:E; cbn [bind];
      [discriminate |].
    intros H. apply IH in H. pose proof (oriented_siding_nonneg ow a E). lra.
Qed.

(** When the unfiltered loop returns, so does every filtered one, with no
    more than the unfiltered gain. *)
Lemma total_loop_filter_le ds ows t va :
  WallContainer.total_loop None ows t = Return va ->
  forall t', exists vf,
    WallContainer.total_loop (Some ds) ows t' = Return vf
    /\ vf - t' <= va - t.
Proof.
  revert t. induction ows as [|ow ows IH]; intros t;
    cbn [WallContainer.total_loop].
  - intros [= <-] t'. exists t'. split; [reflexivity | lra].
  - destruct (OrientedWall.siding_area_sq_in ow) as [e|a] eqn:E; cbn [bind];
      [discriminate |].
    intros H t'. pose proof (oriented_siding_nonneg ow a E) as Ha.
    destruct (bool_decide (OrientedWall.direction ow ∈ ds)).
    + destruct (IH _ H (t' + a)) as (vf & Hvf & Hle).
      exists vf. split; [exact Hvf | lra].
    + destruct (IH _ H t') as (vf & Hvf & Hle).
      exists vf. split; [exact Hvf | lra].
Qed.

(** Walls outside the filter are not even asked for their area. *)
Lemma total_loop_no_match (ds : gset string) ows t :
  Forall (fun ow => OrientedWall.direction ow ∉ ds) ows ->
  WallContainer.total_loop (Some ds) ows t = Return t.
Proof.
  induction 1 as [|ow ows Hnot _ IH]; cbn [WallContainer.total_loop];
    [reflexivity |].
  now rewrite (bool_decide_eq_false_2 _ Hnot).
Qed.

(** Filtering on one key follows that key's entry of the dictionary. *)
Lemma breakdown_loop_single k ows (out m : gmap string R) :
  WallContainer.breakdown_loop ows out = Return m ->
  WallContainer.total_loop (Some {[k]}) ows (default 0 (out !! k))
  = Return (default 0 (m !! k)).
Proof.
  revert out. induction ows as [|ow ows IH]; intros out;
    cbn [WallContainer.breakdown_loop WallContainer.total_loop].
  - now intros [= <-].
  - destruct (OrientedWall.siding_area_sq_in ow) as [e|a]; cbn [bind];
      [discriminate |].
    intros H. apply IH in H.
    destruct (decide (OrientedWall.direction ow = k)) as [Heq|Hne].
    + rewrite bool_decide_eq_true_2 by (apply elem_of_singleton; exact Heq).
      rewrite Heq, lookup_insert_eq in H. exact H.
    + rewrite bool_decide_eq_false_2
        by (rewrite elem_of_singleton; exact Hne).
      rewrite lookup_insert_ne in H by exact Hne. exact H.
Qed.

(** The keys are the directions met, and no entry is negative. *)
Lemma breakdown_loop_dom ows (out m : gmap string R) :
  WallContainer.breakdown_loop ows out = Return m ->
  dom m = dom out ∪ list_to_set (map OrientedWall.direction ows)
  /\ ((forall k v, out !! k = Some v -> 0 <= v) ->
      forall k v, m !! k = Some v -> 0 <= v).
Proof.
  revert out. induction ows as [|ow ows IH]; intros out;
    cbn [WallContainer.breakdown_loop].
  - intros [= <-]. cbn [map list_to_set].
    split; [now rewrite (right_id_L ∅ (∪)) | auto].
  - destruct (OrientedWall.siding_area_sq_in ow) as [e|a] eqn:E; cbn [bind];
      [discriminate |].
    intros H. apply IH in H. destruct H as [Hdom Hpos].
    pose proof (oriented_siding_nonneg ow a E) as Ha.
    split.
    + rewrite Hdom, dom_insert_L. cbn [map list_to_set].
      apply set_eq. intros x. rewrite !elem_of_union. tauto.
    + intros Hout. apply Hpos. intros k v.
      destruct (decide (OrientedWall.direction ow = k)) as [<-|Hne].
      * rewrite lookup_insert_eq. intros [= <-].
        destruct (out !! OrientedWall.direction ow) as [v0|] eqn:E0;
          cbn [default from_option]; unfold Datatypes.id.
        -- pose proof (Hout _ _ E0). lra.
        -- lra.
      * rewrite lookup_insert_ne by exact Hne. apply Hout.
Qed.

Lemma breakdown_by_direction_nonneg (c : WallContainer.t) (m : gmap string R) :
  WallContainer.breakdown_by_direction c = Return m ->
  forall (k : string) (v : R), m !! k = Some v -> 0 <= v.
Proof.
  intros Hm. unfold WallContainer.breakdown_by_direction in Hm.
  destruct (breakdown_loop_dom _ _ _ Hm) as [_ Hpos].
  apply Hpos. intros k v. now rewrite lookup_empty.
Qed.

Lemma list_to_set_normalized (ds : list string) (x : string) :
  x ∈ (list_to_set (map normalize_direction ds) : gset string)
  <-> In x (map normalize_direction ds).
Proof. now rewrite elem_of_list_to_set, list_elem_of_In. Qed.

End ContainerCompose.

(** X17: a direction filter that no stored wall matches (the empty filter
    in particular) gives a total of 0, and the walls left out are not
    evaluated: the call returns even if some wall's area would fail. *)
Theorem total_siding_area_sq_in_no_match (c : WallContainer.t) :
  (forall ds : list string,
     (forall ow : OrientedWall.t,
        In ow (WallContainer._walls c) ->
        ~ In (OrientedWall.direction ow) (map normalize_direction ds)) ->
     WallContainer.total_siding_area_sq_in c (Some ds) = Return 0)
  /\ WallContainer.total_siding_area_sq_in c (Some []) = Return 0.
Proof.
  assert (Hgen : forall ds : list string,
     (forall ow : OrientedWall.t,
        In ow (WallContainer._walls c) ->
        ~ In (OrientedWall.direction ow) (map normalize_direction ds)) ->
     WallContainer.total_siding_area_sq_in c (Some ds) = Return 0).
  { intros ds Hno. unfold WallContainer.total_siding_area_sq_in.
    apply total_loop_no_match. apply List.Forall_forall. intros ow Hin.
    rewrite list_to_set_normalized. now apply Hno. }
  split; [exact Hgen |]. apply Hgen. intros ow _ [].
Qed.

(** X18: whenever [breakdown_by_direction] returns, the total filtered on
    one direction is that direction's entry of the breakdown, or 0 when
    the breakdown has no such key. *)
Theorem total_siding_area_sq_in_single
    (c : WallContainer.t) (m : gmap string R) (d : string) :
  WallContainer.breakdown_by_direction c = Return m ->
  WallContainer.total_siding_area_sq_in c (Some [d])
  = Return (default 0 (m !! normalize_direction d)).
Proof.
  intros Hm. unfold WallContainer.total_siding_area_sq_in.
  cbn [map list_to_set]. rewrite (right_id_L ∅ (∪)).
  unfold WallContainer.breakdown_by_direction in Hm.
  apply (breakdown_loop_single (normalize_direction d)) in Hm.
  now rewrite lookup_empty in Hm.
Qed.

(** X19: the filter is a set of normalized labels: two lists of labels
    that normalize to the same labels, whatever their order, repetitions
    or spelling, select the same walls and give the same result. *)
Theorem total_siding_area_sq_in_filter_set
    (c : WallContainer.t) (ds ds' : list string) :
  (forall x : string,
     In x (map normalize_direction ds) <-> In x (map normalize_direction ds')) ->
  WallContainer.total_siding_area_sq_in c (Some ds)
  = WallContainer.total_siding_area_sq_in c (Some ds').
Proof.
  intros Hsame. unfold WallContainer.total_siding_area_sq_in.
  assert (E : (list_to_set (map normalize_direction ds) : gset string)
              = list_to_set (map normalize_direction ds')).
  { apply set_eq. intros x. rewrite !list_to_set_normalized. apply Hsame. }
  now rewrite E.
Qed.

(** X20: totals are never negative, and if the total over all walls
    returns then so does every filtered total, with a value between 0 and
    the total over all walls. *)
Theorem total_siding_area_sq_in_bounds (c : WallContainer.t) :
  (forall (directions : option (list string)) (v : R),
     WallContainer.total_siding_area_sq_in c directions = Return v ->
     0 <= v)
  /\ (forall (ds : list string) (v_all : R),
        WallContainer.total_siding_area_sq_in c None = Return v_all ->
        exists v : R,
          WallContainer.total_siding_area_sq_in c (Some ds) = Return v
          /\ 0 <= v <= v_all).
Proof.
  split.
  - intros directions v H. unfold WallContainer.total_siding_area_sq_in in H.
    now apply total_loop_ge in H.
  - intros ds v_all H. unfold WallContainer.total_siding_area_sq_in in *.
    destruct (total_loop_filter_le
                (list_to_set (map normalize_direction ds)) _ _ _ H 0)
      as (v & Hv & Hle).
    exists v. split; [exact Hv |].
    pose proof (total_loop_ge _ _ _ _ Hv). lra.
Qed.

(** X21: [add_wall] composes with the reports: the empty container totals
    0 and has the empty breakdown; adding a wall whose area is [a] raises
    the total over all walls by [max(0, a)] and adds [max(0, a)] to the
    breakdown entry of its normalized label (starting the entry at 0 if
    it is new); a failure of the walls already stored comes first. *)
Theorem add_wall_reports :
  WallContainer.total_siding_area_sq_in WallContainer.init None = Return 0
  /\ WallContainer.breakdown_by_direction WallContainer.init = Return ∅
  /\ (forall (c : WallContainer.t) (w : Wall.t) (d : string) (t a : R),
        WallContainer.total_siding_area_sq_in c None = Return t ->
        Wall.siding_area_sq_in w = Return a ->
        WallContainer.total_siding_area_sq_in
          (WallContainer.add_wall c w d) None
        = Return (t + Rmax 0 a))
  /\ (forall (c : WallContainer.t) (w : Wall.t) (d : string)
             (m : gmap string R) (a : R),
        WallContainer.breakdown_by_direction c = Return m ->
        Wall.siding_area_sq_in w = Return a ->
        WallContainer.breakdown_by_direction (WallContainer.add_wall c w d)
        = Return (<[normalize_direction d :=
                      default 0 (m !! normalize_direction d) + Rmax 0 a]> m))
  /\ (forall (c : WallContainer.t) (w : Wall.t) (d : string) (e : exn),
        WallContainer.total_siding_area_sq_in c None = Raise e ->
        WallContainer.total_siding_area_sq_in
          (WallContainer.add_wall c w d) None
        = Raise e).
Proof.
  split; [reflexivity |]. split; [reflexivity |].
  split; [| split].
  - intros c w d t a Ht Ha.
    unfold WallContainer.total_siding_area_sq_in, WallContainer.add_wall in *.
    cbn [WallContainer._walls]. rewrite total_loop_app, Ht.
    cbn [bind WallContainer.total_loop].
    now rewrite (oriented_siding_Return w d a Ha).
  - intros c w d m a Hm Ha.
    unfold WallContainer.breakdown_by_direction, WallContainer.add_wall in *.
    cbn [WallContainer._walls]. rewrite breakdown_loop_app, Hm.
    cbn [bind WallContainer.breakdown_loop].
    now rewrite (oriented_siding_Return w d a Ha).
  - intros c w d e He.
    unfold WallContainer.total_siding_area_sq_in, WallContainer.add_wall in *.
    cbn [WallContainer._walls]. now rewrite total_loop_app, He.
Qed.

(** X22: when [breakdown_by_direction] returns, its keys are exactly the
    direction labels of the stored walls and none of its values is
    negative. *)
Theorem breakdown_by_direction_keys
    (c : WallContainer.t) (m : gmap string R) :
  WallContainer.breakdown_by_direction c = Return m ->
  (forall k : string,
     is_Some (m !! k)
     <-> In k (map OrientedWall.direction (WallContainer._walls c)))
  /\ (forall (k : string) (v : R), m !! k = Some v -> 0 <= v).
Proof.
  intros Hm. unfold WallContainer.breakdown_by_direction in Hm.
  destruct (breakdown_loop_dom _ _ _ Hm) as [Hdom Hpos].
  split.
  - intros k. rewrite <- elem_of_dom, Hdom, dom_empty_L, (left_id_L ∅ (∪)).
    now rewrite elem_of_list_to_set, list_elem_of_In.
  - apply Hpos. intros k v. now rewrite lookup_empty.
Qed.

(** X23: the feet-and-inches total is the square-inch total split at 144:
    the feet are never negative, the remainder lies in the half-open
    interval from 0 to 144, and, over exact arithmetic, together they
    give the square-inch total back. *)
Theorem total_siding_area_ft_in_spec
    (c : WallContainer.t) (directions : option (list string))
    (ft : Z) (rem : R) :
  WallContainer.total_siding_area_ft_in c directions = Return (ft, rem) ->
  (0 <= ft)%Z /\ 0 <= rem < 144
  /\ WallContainer.total_siding_area_sq_in c directions
     = Return (144 * IZR ft + rem).
Proof.
  unfold WallContainer.total_siding_area_ft_in.
  destruct (WallContainer.total_siding_area_sq_in c directions) as [e|v] eqn:E;
    cbn [bind]; [discriminate |].
  unfold WallContainer.total_siding_area_sq_in in E.
  apply total_loop_ge in E.
  unfold convert_sq_in_to_ft_in, Py.mod_, Py.floordiv, SQ_IN_PER_SQ_FT.
  intros [= <- <-]. pose proof (floor_bounds (v / 144)) as Hf.
  split; [| split].
  - apply Z.lt_succ_r, lt_IZR. rewrite succ_IZR. lra.
  - lra.
  - f_equal. ring.
Qed.

(** X24: over exact arithmetic [breakdown_by_direction_ft_in] returns
    exactly when
    [breakdown_by_direction] does, with the same keys; each entry is that
    key's square-inch area split at 144, with feet that are never
    negative and a remainder in the half-open interval from 0 to 144. *)
Theorem breakdown_by_direction_ft_in_spec (c : WallContainer.t) :
  (forall e : exn,
     WallContainer.breakdown_by_direction c = Raise e ->
     WallContainer.breakdown_by_direction_ft_in c = Raise e)
  /\ (forall m : gmap string R,
        WallContainer.breakdown_by_direction c = Return m ->
        exists m' : gmap string (Z * R),
          WallContainer.breakdown_by_direction_ft_in c = Return m'
          /\ (forall k : string, is_Some (m' !! k) <-> is_Some (m !! k))
          /\ (forall (k : string) (ft : Z) (rem : R),
                m' !! k = Some (ft, rem) ->
                (0 <= ft)%Z /\ 0 <= rem < 144
                /\ m !! k = Some (144 * IZR ft + rem))).
Proof.
  unfold WallContainer.breakdown_by_direction_ft_in. split.
  - now intros e ->.
  - intros m Hm. rewrite Hm. cbn [bind]. eexists. split; [reflexivity |].
    pose proof (breakdown_by_direction_nonneg c m Hm) as Hpos.
    split.
    + intros k. rewrite lookup_fmap. apply fmap_is_Some.
    + intros k ft rem. rewrite lookup_fmap.
      destruct (m !! k) as [v|] eqn:E; cbn; [| discriminate].
      unfold convert_sq_in_to_ft_in, Py.mod_, Py.floordiv, SQ_IN_PER_SQ_FT.
      intros [= <- <-]. pose proof (floor_bounds (v / 144)) as Hf.
      pose proof (Hpos k v E) as Hv.
      split; [| split].
      * apply Z.lt_succ_r, lt_IZR. rewrite succ_IZR. lra.
      * lra.
      * do 2 f_equal. ring.
Qed.

Section ContainerOrder.

Lemma oriented_siding_Raise ow e :
  OrientedWall.siding_area_sq_in ow = Raise e -> e = ZeroDivisionError.
Proof.
  unfold OrientedWall.siding_area_sq_in.
  destruct (Wall.siding_area_sq_in (OrientedWall.wall ow)) as [e'|a] eqn:E;
    cbn [bind]; [| discriminate].
  intros [= <-]. now apply (siding_area_sq_in_Raise _ _ E).
Qed.

Lemma total_loop_all_match (ds : gset string) ows t :
  Forall (fun ow => OrientedWall.direction ow ∈ ds) ows ->
  WallContainer.total_loop (Some ds) ows t
  = WallContainer.total_loop None ows t.
Proof.
  intros H. revert t. induction H as [|ow ows Hin _ IH]; intros t;
    cbn [WallContainer.total_loop]; [reflexivity |].
  rewrite (bool_decide_eq_true_2 _ Hin).
  destruct (OrientedWall.siding_area_sq_in ow); cbn [bind];
    [reflexivity | apply IH].
Qed.

Lemma total_loop_acc_ext dirs ows t t' :
  t = t' ->
  WallContainer.total_loop dirs ows t = WallContainer.total_loop dirs ows t'.
Proof. now intros ->. Qed.

Lemma total_loop_Permutation dirs xs ys :
  Permutation xs ys ->
  forall t,
    WallContainer.total_loop dirs xs t = WallContainer.total_loop dirs ys t.
Proof.
  induction 1 as [|x xs ys _ IH|x y l|xs ys zs _ IH1 _ IH2]; intros t.
  - reflexivity.
  - cbn [WallContainer.total_loop].
    destruct (match dirs with
              | Some ds => bool_decide (OrientedWall.direction x ∈ ds)
              | None => true
              end); [| apply IH].
    destruct (OrientedWall.siding_area_sq_in x); cbn [bind];
      [reflexivity | apply IH].
  - cbn [WallContainer.total_loop].
    destruct (match dirs with
              | Some ds => bool_decide (OrientedWall.direction y ∈ ds)
              | None => true
              end),
             (match dirs with
              | Some ds => bool_decide (OrientedWall.direction x ∈ ds)
              | None => true
              end); try reflexivity.
    destruct (OrientedWall.siding_area_sq_in y) as [ey|b] eqn:Ey,
             (OrientedWall.siding_area_sq_in x) as [ex|a] eqn:Ex;
      cbn [bind]; try reflexivity.
    + now rewrite (oriented_siding_Raise _ _ Ex),
        (oriented_siding_Raise _ _ Ey).
    + apply total_loop_acc_ext. lra.
  - now rewrite IH1.
Qed.

(** Accumulating under two keys commutes. *)
Lemma accumulate_comm (out : gmap string R) d1 d2 a b :
  <[d1 := default 0 (<[d2 := default 0 (out !! d2) + b]> out !! d1) + a]>
    (<[d2 := default 0 (out !! d2) + b]> out)
  = <[d2 := default 0 (<[d1 := default 0 (out !! d1) + a]> out !! d2) + b]>
      (<[d1 := default 0 (out !! d1) + a]> out).
Proof.
  destruct (decide (d1 = d2)) as [->|Hne].
  - rewrite !lookup_insert_eq, !insert_insert_eq. cbn [default from_option].
    unfold Datatypes.id. f_equal. lra.
  - rewrite (lookup_insert_ne _ d2 d1) by congruence.
    rewrite (lookup_insert_ne _ d1 d2) by exact Hne.
    now apply insert_insert_ne.
Qed.

Lemma breakdown_loop_Permutation xs ys :
  Permutation xs ys ->
  forall out : gmap string R,
    WallContainer.breakdown_loop xs out = WallContainer.breakdown_loop ys out.
Proof.
  induction 1 as [|x xs ys _ IH|x y l|xs ys zs _ IH1 _ IH2]; intros out.
  - reflexivity.
  - cbn [WallContainer.breakdown_loop].
    destruct (OrientedWall.siding_area_sq_in x); cbn [bind];
      [reflexivity | apply IH].
  - cbn [WallContainer.breakdown_loop].
    destruct (OrientedWall.siding_area_sq_in y) as [ey|b] eqn:Ey,
             (OrientedWall.siding_area_sq_in x) as [ex|a] eqn:Ex;
      cbn [bind]; try reflexivity.
    + now rewrite (oriented_siding_Raise _ _ Ex),
        (oriented_siding_Raise _ _ Ey).
    + now rewrite accumulate_comm.
  - now rewrite IH1.
Qed.

Lemma isclose_sym a b rel_tol abs_tol :
  0 <= rel_tol ->
  Py.isclose a b rel_tol abs_tol = Py.isclose b a rel_tol abs_tol.
Proof.
  intros Hrel.
  destruct (Py.isclose a b rel_tol abs_tol) eqn:E1,
           (Py.isclose b a rel_tol abs_tol) eqn:E2; try reflexivity.
  - apply isclose_iff in E1; [| exact Hrel].
    rewrite Rabs_minus_sym, (Rmax_comm (Rabs a)) in E1.
    apply isclose_iff in E1; [| exact Hrel]. congruence.
  - apply isclose_iff in E2; [| exact Hrel].
    rewrite Rabs_minus_sym, (Rmax_comm (Rabs b)) in E2.
    apply isclose_iff in E2; [| exact Hrel]. congruence.
Qed.

End ContainerOrder.

(** X25: a filter that names every stored wall's direction gives the same
    result as no filter at all. *)
Theorem total_siding_area_sq_in_all_match
    (c : WallContainer.t) (ds : list string) :
  (forall ow : OrientedWall.t,
     In ow (WallContainer._walls c) ->
     In (OrientedWall.direction ow) (map normalize_direction ds)) ->
  WallContainer.total_siding_area_sq_in c (Some ds)
  = WallContainer.total_siding_area_sq_in c None.
Proof.
  intros Hall. unfold WallContainer.total_siding_area_sq_in.
  apply total_loop_all_match. apply List.Forall_forall. intros ow Hin.
  rewrite list_to_set_normalized. now apply Hall.
Qed.

(** X26: over exact arithmetic the order in which walls were added changes neither a total
    (filtered or not) nor the breakdown: two containers holding the same
    oriented walls in any order report the same, and fail alike. *)
Theorem WallContainer_order (c c' : WallContainer.t) :
  Permutation (WallContainer._walls c) (WallContainer._walls c') ->
  (forall directions : option (list string),
     WallContainer.total_siding_area_sq_in c directions
     = WallContainer.total_siding_area_sq_in c' directions)
  /\ WallContainer.breakdown_by_direction c
     = WallContainer.breakdown_by_direction c'.
Proof.
  intros Hperm. split.
  - intros directions. unfold WallContainer.total_siding_area_sq_in.
    now apply total_loop_Permutation.
  - unfold WallContainer.breakdown_by_direction.
    now apply breakdown_loop_Permutation.
Qed.

(** X27: whether the pitches match does not depend on which triangle is
    the outer one: for triangles with non-zero [pitch_run],
    [outer - inner] raises the pitch error exactly when [inner - outer]
    does. *)
Theorem equivalent_difference_pitch_symmetric (outer inner : TriSection.t) :
  TriSection.pitch_run outer <> 0 ->
  TriSection.pitch_run inner <> 0 ->
  TriSection.equivalent_difference outer inner
  = Raise TriSection.pitch_mismatch
  <-> TriSection.equivalent_difference inner outer
      = Raise TriSection.pitch_mismatch.
Proof.
  intros Ho Hi.
  assert (Hchar : forall x y : TriSection.t,
            TriSection.pitch_run x <> 0 -> TriSection.pitch_run y <> 0 ->
            TriSection.equivalent_difference x y
            = Raise TriSection.pitch_mismatch
            <-> Py.isclose
                  (TriSection.pitch_rise x / TriSection.pitch_run x)
                  (TriSection.pitch_rise y / TriSection.pitch_run y)
                  1e-9 1e-12 = false).
  { intros x y Hx Hy. rewrite (equivalent_difference_run x y Hx Hy).
    destruct (Py.isclose _ _ _ _); cbn [negb]; [| tauto].
    split; [| discriminate].
    destruct (Py.ltb _ _); [discriminate |].
    unfold Py.sqrt. destruct (Py.ltb _ _); cbn [bind]; [discriminate |].
    rewrite init_Return by apply sqrt_pos. discriminate. }
  rewrite (Hchar outer inner Ho Hi), (Hchar inner outer Hi Ho).
  rewrite (isclose_sym _ _ 1e-9 1e-12) by lra. tauto.
Qed.

(** * The further properties at concrete inputs *)

Section MoreRuns.

Example panels_needed_for_area_sq_in_demo :
  panels_needed_for_area_sq_in 10000 32 0.10 = Return 3%Z
  /\ panels_needed_for_area_sq_in (-5) 32 0.10 = Return 0%Z.
Proof.
  assert (Hp : Py.leb 32 0 = false) by (apply leb_false; lra).
  unfold panels_needed_for_area_sq_in. rewrite Hp, !max_Rmax.
  unfold SQ_IN_PER_SQ_FT. split; f_equal; apply ceil_unique.
  - rewrite Rmax_right by lra. lra.
  - rewrite Rmax_left by lra. lra.
Qed.

(** A container of one wall. *)
Lemma one_wall_total w d a :
  Wall.siding_area_sq_in w = Return a ->
  WallContainer.total_siding_area_sq_in
    (WallContainer.add_wall WallContainer.init w d) None
  = Return (0 + Rmax 0 a).
Proof.
  intros Ha. unfold WallContainer.total_siding_area_sq_in.
  cbn [WallContainer.add_wall WallContainer.init WallContainer._walls app
         WallContainer.total_loop].
  now rewrite (oriented_siding_Return w d a Ha).
Qed.

Lemma one_wall_breakdown w d a :
  Wall.siding_area_sq_in w = Return a ->
  WallContainer.breakdown_by_direction
    (WallContainer.add_wall WallContainer.init w d)
  = Return {[ normalize_direction d := 0 + Rmax 0 a ]}.
Proof.
  intros Ha. unfold WallContainer.breakdown_by_direction.
  cbn [WallContainer.add_wall WallContainer.init WallContainer._walls app
         WallContainer.breakdown_loop].
  rewrite (oriented_siding_Return w d a Ha). cbn [bind].
  now rewrite lookup_empty, insert_empty.
Qed.

(** The closeness test on two pitches that differ in the tenth digit. *)
Lemma close_pitches_demo :
  Py.isclose (6 / 12) (6.000000001 / 12) 1e-9 1e-12 = true.
Proof.
  apply isclose_iff; [lra |].
  rewrite (Rabs_left (6 / 12 - 6.000000001 / 12)) by lra.
  rewrite !Rabs_pos_eq by lra.
  rewrite (Rmax_right (6 / 12) (6.000000001 / 12)) by lra.
  rewrite Rmax_left by lra. lra.
Qed.

End MoreRuns.

Lemma pts_to_ft_in_round_to_frac_witness :
  pts_to_ft_in 689 0 = Raise ZeroDivisionError
  /\ (exists (ft : Z) (r : R), pts_to_ft_in 689 (-16) = Return (ft, r))
  /\ pts_to_ft_in 689 (- 16) = pts_to_ft_in 689 16.
Proof.
  split; [| split].
  - now apply (pts_to_ft_in_round_to_frac 689 0).
  - apply (pts_to_ft_in_round_to_frac 689 (-16)). lia.
  - apply (pts_to_ft_in_round_to_frac 689 16).
Defined.

Lemma pts_to_ft_in_rounds_whole_witness :
  (0 < 16)%Z
  /\ exists (ft : Z) (r : R) (K : Z),
       pts_to_ft_in 689 16 = Return (ft, r)
       /\ 0 <= r < 12
       /\ Rabs (689 * SCALE_IN_PER_PT * IZR 16 - IZR K) <= 1 / 2
       /\ (Rabs (689 * SCALE_IN_PER_PT * IZR 16 - IZR K) = 1 / 2 ->
           Z.even K = true)
       /\ IZR ft * 12 + r = IZR K / IZR 16.
Proof. split; [lia | apply (pts_to_ft_in_rounds_whole 689 16); lia]. Defined.

Lemma pts_to_ft_in_monotone_witness :
  11.99 * (799 / 629) <= 689
  /\ (1 <= 45)%Z /\ IZR 1 * 12 + 0 <= IZR 45 * 12 + 2.375.
Proof.
  assert (Hle : 11.99 * (799 / 629) <= 689) by lra.
  split; [exact Hle |].
  apply (pts_to_ft_in_monotone (11.99 * (799 / 629)) 689 16 1 45 0 2.375);
    [lia | exact Hle | exact pts_to_ft_in_carry | exact pts_to_ft_in_689].
Defined.

Lemma pts_to_ft_in_ft_in_to_pts_witness :
  (0 <= 5 < 12 * 16)%Z
  /\ pts_to_ft_in (ft_in_to_pts 3 (IZR 5 / IZR 16)) 16
     = Return (3%Z, IZR 5 / IZR 16).
Proof.
  split; [lia | apply (pts_to_ft_in_ft_in_to_pts 3 5 16); lia].
Defined.

Lemma convert_sq_in_to_ft_in_recombine_witness :
  0 <= 132 < 144
  /\ convert_sq_in_to_ft_in (144 * IZR (-3) + 132) = ((-3)%Z, 132).
Proof.
  split; [lra | apply (convert_sq_in_to_ft_in_recombine (-3) 132); lra].
Defined.

Lemma panels_needed_for_area_sq_in_monotone_witness :
  -5 <= 10000 /\ (0 <= 0 <= 3)%Z.
Proof.
  assert (Hle : -5 <= 10000) by lra.
  split; [exact Hle |].
  apply (panels_needed_for_area_sq_in_monotone (-5) 10000 32 0.10 0 3);
    [lra | lra | exact Hle
     | exact (proj2 panels_needed_for_area_sq_in_demo)
     | exact (proj1 panels_needed_for_area_sq_in_demo)].
Defined.

Lemma TriSection_area_sq_in_scaling_witness :
  TriSection.area_sq_in (TriSection.Build 10 6 0) = Raise ZeroDivisionError
  /\ TriSection.area_sq_in (TriSection.Build (3 * 10) 6 12)
     = Return (3 ^ 2 * (0.5 * 10 * (10 / 2 * (6 / 12)))).
Proof.
  split.
  - now apply (TriSection_area_sq_in_scaling (TriSection.Build 10 6 0)).
  - apply (TriSection_area_sq_in_scaling (TriSection.Build 10 6 12)).
    apply area_sq_in_Return. cbn. lra.
Defined.

Lemma equivalent_difference_closed_witness :
  let outer := TriSection.Build 10 6 12 in
  let inner := TriSection.Build 6 6 12 in
  TriSection.equivalent_difference outer inner = Raise ZeroDivisionError
  \/ TriSection.equivalent_difference outer inner
     = Raise TriSection.pitch_mismatch
  \/ TriSection.equivalent_difference outer inner
     = Raise TriSection.invalid_geometry
  \/ exists net : TriSection.t,
       TriSection.equivalent_difference outer inner = Return net
       /\ TriSection.constructed net
       /\ TriSection.base_in net ^ 2 + TriSection.base_in inner ^ 2
          = TriSection.base_in outer ^ 2.
Proof.
  intros outer inner.
  apply (equivalent_difference_closed outer inner);
    apply constructed_Build; lra.
Defined.


Lemma equivalent_difference_zero_and_self_witness :
  let outer := TriSection.Build 10 6 12 in
  TriSection.equivalent_difference outer (TriSection.Build 0 6 12)
  = Return outer
  /\ TriSection.equivalent_difference outer outer
     = Return (TriSection.Build 0 6 12)
  /\ TriSection.area_sq_in (TriSection.Build 0 6 12) = Return 0.
Proof.
  intros outer.
  apply (equivalent_difference_zero_and_self outer);
    [apply constructed_Build; lra | cbn; lra].
Defined.

Lemma equivalent_difference_twice_witness :
  let outer := TriSection.Build 10 6 12 in
  let a := TriSection.Build 6 6 12 in
  let b := TriSection.Build 3 6.000000001 12 in
  let net := TriSection.Build (sqrt (10 ^ 2 - 6 ^ 2 - 3 ^ 2)) 6 12 in
  (let* d := TriSection.sub outer a in TriSection.sub d b) = Return net
  /\ (let* d := TriSection.sub outer b in TriSection.sub d a) = Return net.
Proof.
  intros outer a b net.
  apply (equivalent_difference_twice outer a b);
    try (apply constructed_Build; lra); try (cbn; lra).
  - apply isclose_refl.
  - exact close_pitches_demo.
Defined.

Lemma Wall_add_section_add_opening_witness :
  Wall.siding_area_sq_in
    (Wall.add_section Wall.init (Rect (RectSection.init 10 10)))
  = Return (0 + 10 * 10)
  /\ Wall.siding_area_sq_in
       (Wall.add_opening
          (Wall.add_section Wall.init (Rect (RectSection.init 10 10)))
          (Opening.init 2 3))
     = Return (0 + 10 * 10 - Opening.area_sq_in (Opening.init 2 3)).
Proof.
  destruct Wall_add_section_add_opening as (Hinit & Hsec & Hop).
  assert (H1 : Wall.siding_area_sq_in
                 (Wall.add_section Wall.init (Rect (RectSection.init 10 10)))
               = Return (0 + 10 * 10))
    by (apply Hsec; [exact Hinit | reflexivity]).
  split; [exact H1 |]. now apply Hop.
Defined.

Lemma Wall_siding_area_sq_in_order_witness :
  let r := Rect (RectSection.init 10 10) in
  let t := Tri (TriSection.Build 10 6 12) in
  let o1 := Opening.init 2 3 in
  let o2 := Opening.init 4 5 in
  Wall.siding_area_sq_in (Wall.Build [r; t] [o1; o2])
  = Wall.siding_area_sq_in (Wall.Build [t; r] [o2; o1]).
Proof.
  intros r t o1 o2.
  apply (Wall_siding_area_sq_in_order
           (Wall.Build [r; t] [o1; o2]) (Wall.Build [t; r] [o2; o1]));
    apply perm_swap.
Defined.

Lemma Wall_siding_area_sq_in_failure_witness :
  Wall.siding_area_sq_in
    (Wall.Build [Rect (RectSection.init 10 10); Tri (TriSection.Build 10 6 0)]
       [])
  = Raise ZeroDivisionError
  /\ exists v : R,
       Wall.siding_area_sq_in
         (Wall.Build [Rect (RectSection.init 10 10)] [Opening.init 2 3])
       = Return v.
Proof.
  split.
  - apply (Wall_siding_area_sq_in_failure
             (Wall.Build
                [Rect (RectSection.init 10 10); Tri (TriSection.Build 10 6 0)]
                [])).
    apply Exists_cons_tl, Exists_cons_hd. reflexivity.
  - apply (Wall_siding_area_sq_in_failure
             (Wall.Build [Rect (RectSection.init 10 10)] [Opening.init 2 3])).
    intros H. inversion H as [? ? H0|? ? H0]; [exact H0 | inversion H0].
Defined.

Lemma Wall_panels_needed_spec_witness :
  Wall.panels_needed
    (Wall.Build [Tri (TriSection.Build 10 6 0)] []) 0 0.10
  = Raise ZeroDivisionError
  /\ Wall.panels_needed
       (Wall.Build [Rect (RectSection.init 10 10)] [Opening.init 20 20])
       0 0.10
     = Raise (ValueError "panel_sq_ft must be > 0")
  /\ Wall.panels_needed
       (Wall.Build [Rect (RectSection.init 10 10)] [Opening.init 20 20])
       32 0.10
     = Return 0%Z.
Proof.
  assert (Hv : Wall.siding_area_sq_in
                 (Wall.Build [Rect (RectSection.init 10 10)]
                    [Opening.init 20 20])
               = Return (0 + 10 * 10 - (0 + 20 * 20))) by reflexivity.
  split; [| split].
  - apply (Wall_panels_needed_spec
             (Wall.Build [Tri (TriSection.Build 10 6 0)] []) 0 0.10).
    unfold Wall.siding_area_sq_in, Wall.section_area_sq_in.
    cbn [Wall.sections sum_gen Section_area_sq_in].
    now rewrite area_sq_in_Raise.
  - apply (Wall_panels_needed_spec _ 0 0.10) with (v := 0 + 10 * 10 - (0 + 20 * 20));
      [exact Hv | lra].
  - apply (Wall_panels_needed_spec _ 32 0.10) with (v := 0 + 10 * 10 - (0 + 20 * 20));
      [exact Hv | lra | lra].
Defined.

Lemma normalize_direction_idempotent_witness :
  normalize_direction (normalize_direction " N ") = normalize_direction " N "
  /\ normalize_direction "   " = ""
  /\ WallContainer.add_wall WallContainer.init Wall.init
       (normalize_direction "Back ")
     = WallContainer.add_wall WallContainer.init Wall.init "Back ".
Proof.
  destruct normalize_direction_idempotent as (Hidem & Hblank & Hadd).
  split; [| split].
  - apply (Hidem " N ").
  - apply Hblank. reflexivity.
  - apply Hadd.
Defined.

Lemma total_siding_area_sq_in_no_match_witness :
  WallContainer.total_siding_area_sq_in
    (WallContainer.add_wall WallContainer.init
       (Wall.Build [Tri (TriSection.Build 10 6 0)] []) "north")
    (Some ["South"])
  = Return 0.
Proof.
  apply total_siding_area_sq_in_no_match.
  intros ow [<-|[]]. cbn [map In].
  assert (E : normalize_direction "South" = "south") by reflexivity.
  assert (E' : OrientedWall.direction
                 (OrientedWall.init
                    (Wall.Build [Tri (TriSection.Build 10 6 0)] []) "north")
               = "north") by reflexivity.
  rewrite E, E'. intros [H|[]]. discriminate H.
Defined.

Lemma total_siding_area_sq_in_single_witness :
  let c :=
    WallContainer.add_wall WallContainer.init
      (Wall.Build [Rect (RectSection.init 10 10)] []) "back" in
  WallContainer.total_siding_area_sq_in c (Some [" BACK"])
  = Return (default 0
              (({[ normalize_direction "back" := 0 + Rmax 0 (0 + 10 * 10 - 0) ]}
                : gmap string R) !! normalize_direction " BACK")).
Proof.
  intros c.
  apply (total_siding_area_sq_in_single c).
  apply one_wall_breakdown. reflexivity.
Defined.

Lemma total_siding_area_sq_in_filter_set_witness :
  WallContainer.total_siding_area_sq_in
    (WallContainer.add_wall WallContainer.init Wall.init "back")
    (Some ["Back "; "back"; "n"; "North"])
  = WallContainer.total_siding_area_sq_in
      (WallContainer.add_wall WallContainer.init Wall.init "back")
      (Some ["north"; "BACK"]).
Proof.
  apply total_siding_area_sq_in_filter_set.
  assert (E : map normalize_direction ["Back "; "back"; "n"; "North"]
              = ["back"; "back"; "north"; "north"]) by reflexivity.
  assert (E' : map normalize_direction ["north"; "BACK"] = ["north"; "back"])
    by reflexivity.
  rewrite E, E'. intros x. cbn [In]. tauto.
Defined.

Lemma total_siding_area_sq_in_bounds_witness :
  let c :=
    WallContainer.add_wall WallContainer.init
      (Wall.Build [Rect (RectSection.init 10 10)] []) "back" in
  0 <= 0 + Rmax 0 (0 + 10 * 10 - 0)
  /\ exists v : R,
       WallContainer.total_siding_area_sq_in c (Some ["n"]) = Return v
       /\ 0 <= v <= 0 + Rmax 0 (0 + 10 * 10 - 0).
Proof.
  intros c.
  assert (Hall : WallContainer.total_siding_area_sq_in c None
                 = Return (0 + Rmax 0 (0 + 10 * 10 - 0)))
    by (apply one_wall_total; reflexivity).
  destruct (total_siding_area_sq_in_bounds c) as [Hpos Hle].
  split; [exact (Hpos None _ Hall) | exact (Hle ["n"] _ Hall)].
Defined.

Lemma add_wall_reports_witness :
  let w := Wall.Build [Rect (RectSection.init 10 10)] [] in
  WallContainer.total_siding_area_sq_in
    (WallContainer.add_wall WallContainer.init w "n") None
  = Return (0 + Rmax 0 (0 + 10 * 10 - 0))
  /\ WallContainer.breakdown_by_direction
       (WallContainer.add_wall WallContainer.init w "n")
     = Return (<[normalize_direction "n" :=
                   default 0 ((∅ : gmap string R) !! normalize_direction "n")
                   + Rmax 0 (0 + 10 * 10 - 0)]> ∅).
Proof.
  intros w.
  destruct add_wall_reports as (Ht0 & Hb0 & Htot & Hbrk & _).
  split.
  - apply Htot; [exact Ht0 | reflexivity].
  - apply Hbrk; [exact Hb0 | reflexivity].
Defined.

Lemma breakdown_by_direction_keys_witness :
  let c :=
    WallContainer.add_wall WallContainer.init
      (Wall.Build [Rect (RectSection.init 10 10)] []) "n" in
  let m : gmap string R :=
    {[ normalize_direction "n" := 0 + Rmax 0 (0 + 10 * 10 - 0) ]} in
  (forall k : string,
     is_Some (m !! k)
     <-> In k (map OrientedWall.direction (WallContainer._walls c)))
  /\ (forall (k : string) (v : R), m !! k = Some v -> 0 <= v).
Proof.
  intros c m. apply (breakdown_by_direction_keys c m).
  apply one_wall_breakdown. reflexivity.
Defined.

Lemma total_siding_area_ft_in_spec_witness :
  let c :=
    WallContainer.add_wall WallContainer.init
      (Wall.Build [Rect (RectSection.init 144 96)] [Opening.init 35 59])
      "back" in
  let v := 0 + Rmax 0 (0 + 144 * 96 - (0 + 35 * 59)) in
  (0 <= fst (convert_sq_in_to_ft_in v))%Z
  /\ 0 <= snd (convert_sq_in_to_ft_in v) < 144
  /\ WallContainer.total_siding_area_sq_in c None
     = Return (144 * IZR (fst (convert_sq_in_to_ft_in v))
               + snd (convert_sq_in_to_ft_in v)).
Proof.
  intros c v.
  apply (total_siding_area_ft_in_spec c None).
  unfold WallContainer.total_siding_area_ft_in, c.
  rewrite (one_wall_total _ _ (0 + 144 * 96 - (0 + 35 * 59))) by reflexivity.
  reflexivity.
Defined.

Lemma breakdown_by_direction_ft_in_spec_witness :
  let c :=
    WallContainer.add_wall WallContainer.init
      (Wall.Build [Rect (RectSection.init 144 96)] [Opening.init 35 59])
      "back" in
  let m : gmap string R :=
    {[ normalize_direction "back"
       := 0 + Rmax 0 (0 + 144 * 96 - (0 + 35 * 59)) ]} in
  exists m' : gmap string (Z * R),
    WallContainer.breakdown_by_direction_ft_in c = Return m'
    /\ (forall k : string, is_Some (m' !! k) <-> is_Some (m !! k))
    /\ (forall (k : string) (ft : Z) (rem : R),
          m' !! k = Some (ft, rem) ->
          (0 <= ft)%Z /\ 0 <= rem < 144
          /\ m !! k = Some (144 * IZR ft + rem)).
Proof.
  intros c m.
  apply (breakdown_by_direction_ft_in_spec c).
  apply one_wall_breakdown. reflexivity.
Defined.

Lemma total_siding_area_sq_in_all_match_witness :
  let c :=
    WallContainer.add_wall WallContainer.init
      (Wall.Build [Rect (RectSection.init 10 10)] []) "n" in
  WallContainer.total_siding_area_sq_in c (Some ["s"; "North "])
  = WallContainer.total_siding_area_sq_in c None.
Proof.
  intros c. apply (total_siding_area_sq_in_all_match c).
  intros ow [<-|[]]. right. left. reflexivity.
Defined.

Lemma WallContainer_order_witness :
  let w1 := Wall.Build [Rect (RectSection.init 10 10)] [] in
  let w2 := Wall.Build [Tri (TriSection.Build 10 6 12)] [] in
  WallContainer.breakdown_by_direction
    (WallContainer.add_wall
       (WallContainer.add_wall WallContainer.init w1 "n") w2 "back")
  = WallContainer.breakdown_by_direction
      (WallContainer.add_wall
         (WallContainer.add_wall WallContainer.init w2 "back") w1 "n").
Proof.
  intros w1 w2.
  apply (WallContainer_order
           (WallContainer.add_wall
              (WallContainer.add_wall WallContainer.init w1 "n") w2 "back")
           (WallContainer.add_wall
              (WallContainer.add_wall WallContainer.init w2 "back") w1 "n")).
  apply perm_swap.
Defined.

Lemma equivalent_difference_pitch_symmetric_witness :
  TriSection.equivalent_difference
    (TriSection.Build 10 6 10) (TriSection.Build 6 6 12)
  = Raise TriSection.pitch_mismatch.
Proof.
  apply (equivalent_difference_pitch_symmetric
           (TriSection.Build 10 6 10) (TriSection.Build 6 6 12));
    [cbn; lra | cbn; lra |].
  exact equivalent_difference_pitch_first.
Defined.


(** * The code on binary64 doubles

    Runs of module [F64], set against what exact arithmetic gives. *)

Section DoubleRuns.
Import PrimFloat FloatOps SpecFloat.

(** [main]'s values come out as the interpreter prints them. *)
Example F64_main_values :
  F64.pts_to_ft_in 689 16 = Return (45%Z, 2.375%float)
  /\ F64.convert_sq_in_to_ft_in 11759 = Return (81%Z, 95%float)
  /\ F64.panels_needed_for_area_sq_in 10000 32 0.10 = Return 3%Z
  /\ (let* net :=
        F64.TriSection.equivalent_difference
          (F64.TriSection.Build 322.4 6 12) (F64.TriSection.Build 213.6 6 12) in
      Return (F64.TriSection.base_in net))
     = Return 241.48871609249153%float.
Proof. repeat split; vm_compute; reflexivity. Qed.

(** C6, as the claim words it: the count would be the ceiling of the
    quotient.  At area 9600, coverage 25 and waste 0.875 (all three exact
    doubles) the quotient is exactly 5, yet the code, rounding after each
    step, reaches 5.000000000000001 and returns 6. *)
Lemma panels_needed_for_area_sq_in_9600 :
  F64.panels_needed_for_area_sq_in 9600 25 0.875 = Return 6%Z
  /\ (Rmax 0 9600 / 144 * (1 + 0.875) / 25 = 5)%R
  /\ Py.ceil (Rmax 0 9600 / 144 * (1 + 0.875) / 25) = 5%Z.
Proof.
  split; [vm_compute; reflexivity |].
  assert (E : (Rmax 0 9600 / 144 * (1 + 0.875) / 25 = 5)%R)
    by (rewrite Rmax_right by lra; lra).
  split; [exact E |]. rewrite E. apply ceil_unique. lra.
Qed.

(** C7, as the claim words it: the remainder would be rounded to a
    multiple of [1 / round_to_frac] and carried at 12, for every positive
    [round_to_frac].  At 15.234375 points and 49 the nearest multiple is
    588/49 = 12, which exact arithmetic carries; the code multiplies 588
    by the double nearest to 1/49, gets 11.999999999999998 (49 times it is
    no integer), and does not carry.  At [round_to_frac = 10**400] the
    step [1 / round_to_frac] is 0.0 and the call raises. *)
Lemma pts_to_ft_in_short_of_carry :
  F64.pts_to_ft_in 15.234375 49 = Return (0%Z, 11.999999999999998%float)
  /\ Prim2SF 11.999999999999998 = S754_finite false 6755399441055743 (-49)
  /\ ((49 * 6755399441055743) mod 2 ^ 49 <> 0)%Z
  /\ pts_to_ft_in 15.234375 49 = Return (1%Z, 0%R)
  /\ F64.pts_to_ft_in 689 (10 ^ 400) = Raise ZeroDivisionError.
Proof.
  split; [vm_compute; reflexivity |].
  split; [vm_compute; reflexivity |].
  split; [vm_compute; discriminate |].
  split; [| vm_compute; reflexivity].
  destruct (pts_to_ft_in_run 15.234375 49) as (Hrun & _); [lia |].
  rewrite (floor_unique _ 0) in Hrun by lra.
  rewrite (round_unique _ 588) in Hrun by lra.
  assert (E : Py.leb 12 (588 / 49) = true) by (apply leb_true; lra).
  rewrite E in Hrun. rewrite Hrun. do 2 f_equal. lra.
Qed.

(** C8, as the claim words it: a value on a step boundary would come
    back exactly.  799 points are 629 inches, a multiple of 1/16;
    [pts_to_ft_in] returns 52 feet 5 inches, and [ft_in_to_pts] gives
    798.9999999999999, because [1 / (629 / 799)] is a rounded double. *)
Lemma ft_in_to_pts_799 :
  F64.pts_to_ft_in 799 16 = Return (52%Z, 5%float)
  /\ F64.ft_in_to_pts 52 5 = Return 798.9999999999999%float
  /\ (798.9999999999999 =? 799)%float = false
  /\ (799 * SCALE_IN_PER_PT = IZR 10064 / IZR 16)%R.
Proof.
  split; [vm_compute; reflexivity |].
  split; [vm_compute; reflexivity |].
  split; [vm_compute; reflexivity |].
  unfold SCALE_IN_PER_PT. lra.
Qed.

(** C10, as the claim words it: the remainder would lie below 144 and
    recombine to [x].  At [x = -2**-70] the code returns -1 square feet
    and a remainder of 144.0 itself ([-2**-70 + 144] rounds to 144), and
    [144 * -1 + 144] is 0, not [x]. *)
Lemma convert_sq_in_to_ft_in_tiny_negative :
  F64.convert_sq_in_to_ft_in (-0x1p-70) = Return ((-1)%Z, 144%float)
  /\ (144 <? 144)%float = false
  /\ (144 * -1 + 144)%float = 0%float
  /\ (0 =? -0x1p-70)%float = false.
Proof. repeat split; vm_compute; reflexivity. Qed.

(** C3, as the claim words it: every call would end in the pitch error,
    the base error or a normal return.  Two constructed triangles with a
    zero [pitch_run] end in [ZeroDivisionError] (the division in [pitch]
    raises first), and on doubles an outer base of [2**512] with the same
    pitch as the inner triangle ends in [OverflowError], raised by
    [base_in ** 2]. *)
Lemma equivalent_difference_unlisted_outcomes :
  (let outer := TriSection.Build 10 6 0 in
   let inner := TriSection.Build 5 6 0 in
   TriSection.init 10 6 0 = Return outer
   /\ TriSection.init 5 6 0 = Return inner
   /\ TriSection.equivalent_difference outer inner = Raise ZeroDivisionError)
  /\ (let outer := F64.TriSection.Build 0x1p512 6 12 in
      let inner := F64.TriSection.Build 1 6 12 in
      F64.TriSection.init 0x1p512 6 12 = Return outer
      /\ F64.TriSection.init 1 6 12 = Return inner
      /\ F64.TriSection.equivalent_difference outer inner
         = Raise OverflowError)
  /\ ZeroDivisionError <> TriSection.pitch_mismatch
  /\ ZeroDivisionError <> TriSection.invalid_geometry
  /\ OverflowError <> TriSection.pitch_mismatch
  /\ OverflowError <> TriSection.invalid_geometry.
Proof.
  split; [| split; [| repeat split; discriminate]].
  - cbn zeta. split; [apply init_Return; lra |].
    split; [apply init_Return; lra |].
    unfold TriSection.equivalent_difference.
    now rewrite (pitch_Raise (TriSection.Build 10 6 0) eq_refl).
  - repeat split; vm_compute; reflexivity.
Qed.

End DoubleRuns.
